(** * Eco-Coach AI: the waste-classification and CO2-estimation pipeline

    A shallow embedding of the analysis core of [app.py]: the impact table
    [CO2_IMPACT_MAP], the heuristic classifier [get_mock_ai_response] and the
    entry point [get_ai_waste_analysis], followed by the properties that the
    design document states about them.

    Modelling conventions.
    - A Python [str] is a Rocq [string]; [lower] and [strip] act on the ASCII
      range.  Every keyword the program searches for is lowercase ASCII, and
      no keyword contains the letter k or ends with the letter i, the only
      ASCII letters that [str.lower] can produce from a non-ASCII character.
    - A Python [float] is a binary64 primitive float, so products round as
      they do in CPython.  [round2] models the builtin [round(x, 2)].
    - The value returned by [json.loads] is a [json] tree.  The parser
      itself belongs to the Python library and is a parameter [json_loads]
      of the entry point; [None] stands for a decoding error.
    - An exception is a value [Raised e] of the [outcome] monad.
    - The process environment and the remote endpoint are explicit
      arguments; the entry point returns, next to its outcome, the list of
      requests it posted. *)

From Stdlib Require Import ZArith List String Ascii Bool Lia Floats.
Import ListNotations.

Set Warnings "-inexact-float,-register-all".

(* ================================================================== *)
(** ** Python strings *)

Module PyStr.

Open Scope string_scope.

(** The line feed, the separator of [split('\n')] and ['\n'.join]. *)
Definition LF : ascii := ascii_of_nat 10.

(** The double quote, to spell JSON texts. *)
Definition DQ : string := String (ascii_of_nat 34) EmptyString.

Definition is_upper (c : ascii) : bool :=
  let n := nat_of_ascii c in (65 <=? n)%nat && (n <=? 90)%nat.

Definition lower_char (c : ascii) : ascii :=
  if is_upper c then ascii_of_nat (nat_of_ascii c + 32) else c.

(** [s.lower()] *)
Fixpoint lower (s : string) : string :=
  match s with
  | EmptyString => EmptyString
  | String c s' => String (lower_char c) (lower s')
  end.

(** [s.startswith(p)] *)
Fixpoint startswith (p s : string) : bool :=
  match p with
  | EmptyString => true
  | String a p' =>
      match s with
      | EmptyString => false
      | String b s' => Ascii.eqb a b && startswith p' s'
      end
  end.

(** [key in s], substring containment. *)
Fixpoint contains (key s : string) : bool :=
  startswith key s ||
  match s with
  | EmptyString => false
  | String _ s' => contains key s'
  end.

(** The characters that [str.strip()] removes, in the ASCII range:
    tab, line feed, vertical tab, form feed, carriage return, the four
    separators 28 to 31 and the space. *)
Definition is_space (c : ascii) : bool :=
  let n := nat_of_ascii c in
  ((9 <=? n)%nat && (n <=? 13)%nat) || ((28 <=? n)%nat && (n <=? 32)%nat).

Fixpoint lstrip (s : string) : string :=
  match s with
  | EmptyString => EmptyString
  | String c s' => if is_space c then lstrip s' else s
  end.

Fixpoint rstrip (s : string) : string :=
  match s with
  | EmptyString => EmptyString
  | String c s' =>
      match rstrip s' with
      | EmptyString => if is_space c then EmptyString else String c EmptyString
      | r => String c r
      end
  end.

(** [s.strip()] *)
Definition strip (s : string) : string := rstrip (lstrip s).

(** [s.split('\n')]: never empty, one more field than line feeds. *)
Fixpoint split_lines (s : string) : list string :=
  match s with
  | EmptyString => [EmptyString]
  | String c s' =>
      if Ascii.eqb c LF then EmptyString :: split_lines s'
      else match split_lines s' with
           | h :: t => String c h :: t
           | [] => [String c EmptyString]
           end
  end.

(** ['\n'.join(lines)] *)
Fixpoint join_lines (lines : list string) : string :=
  match lines with
  | [] => EmptyString
  | [l] => l
  | l :: rest => l ++ String LF (join_lines rest)
  end.

(** [lines[1:-1]] *)
Definition slice_1_m1 {A : Type} (lines : list A) : list A :=
  removelast (tl lines).

Definition nonempty (s : string) : bool :=
  match s with EmptyString => false | _ => true end.

End PyStr.

(* ================================================================== *)
(** ** Python floats *)

Module PyFloat.

Open Scope Z_scope.

(** [num / den] rounded to the nearest integer, ties to the even one. *)
Definition round_half_even_div (num den : Z) : Z :=
  let q := num / den in
  let r := num mod den in
  match 2 * r ?= den with
  | Lt => q
  | Gt => q + 1
  | Eq => if Z.even q then q else q + 1
  end.

(** [round(x, 2)] on a float.  CPython prints the exact binary value of
    [x] with two decimals, correctly rounded (ties to even), and reads the
    decimal back as the nearest double.  A double with a non-negative
    exponent is an integer and is its own rounding, as are the zeros, the
    infinities and NaN; otherwise [x] is [m / 2^p] up to its sign, the
    decimal is [n / 100] for the integer [n] nearest to [100 * m / 2^p],
    and the sign is kept. *)
Definition round2 (x : float) : float :=
  match Prim2SF x with
  | S754_finite s m (Zneg p) =>
      match round_half_even_div (100 * Zpos m) (2 ^ Zpos p) with
      | Zpos n =>
          SF2Prim (SFdiv prec emax (S754_finite s n 0) (S754_finite false 100 0))
      | _ => SF2Prim (S754_zero s)
      end
  | _ => x
  end.

(** [float(z)] for a Python [int]: the nearest double, ties to even;
    [None] is the [OverflowError] of an integer beyond the double range. *)
Definition float_of_int (z : Z) : option float :=
  match binary_normalize prec emax z 0 false with
  | S754_infinity _ => None
  | sf => Some (SF2Prim sf)
  end.

(** [x >= 0] *)
Definition ge0 (x : float) : bool := PrimFloat.leb 0%float x.

(** [x > 0] *)
Definition gt0 (x : float) : bool := PrimFloat.ltb 0%float x.

(** [math.isfinite(x)] *)
Definition isfinite (x : float) : bool :=
  match Prim2SF x with
  | S754_zero _ | S754_finite _ _ _ => true
  | S754_infinity _ | S754_nan => false
  end.

End PyFloat.

(* ================================================================== *)
(** ** Binary64 rounding, as the specification of the primitive floats
    has it *)

Module B64.

Open Scope Z_scope.

(** Two to the 52: the mantissa of a power of two. *)
Definition P52 : positive := 4503599627370496.

(** 0.5 and 0.25 as specification floats. *)
Definition half_sf : spec_float := S754_finite false P52 (-53).
Definition quarter_sf : spec_float := S754_finite false P52 (-54).

(** The second half of [binary_round_aux]: the shift that follows the
    rounding of the mantissa, and the overflow test. *)
Definition finish (s : bool) (m1 e1 : Z) : spec_float :=
  let '(mrs, e2) := shr_fexp prec emax m1 e1 loc_Exact in
  match shr_m mrs with
  | Z0 => S754_zero s
  | Zpos m => if e2 <=? emax - prec then S754_finite s m e2 else S754_infinity s
  | Zneg _ => S754_nan
  end.

(** Half of the subnormal [m * 2^-1074], to the nearest even. *)
Definition rne_half (s : bool) (m : positive) : spec_float :=
  match m with
  | xH => S754_zero s
  | xO p => S754_finite s p (-1074)
  | xI p => S754_finite s (if Z.even (Zpos p) then p else Pos.succ p) (-1074)
  end.

(** A quarter of the subnormal [m * 2^-1074], to the nearest even. *)
Definition rne_quarter (s : bool) (m : positive) : spec_float :=
  match m with
  | xH | xO xH => S754_zero s
  | xI xH => S754_finite s 1 (-1074)
  | xO (xO p) | xI (xO p) => S754_finite s p (-1074)
  | xO (xI p) => S754_finite s (if Z.even (Zpos p) then p else Pos.succ p) (-1074)
  | xI (xI p) => S754_finite s (Pos.succ p) (-1074)
  end.

(** A specification float that is a zero or is positive, finite or not. *)
Definition sf_nonneg (y : spec_float) : Prop :=
  (exists s, y = S754_zero s) \/ y = S754_infinity false
  \/ (exists m e, y = S754_finite false m e).

End B64.

(* ================================================================== *)
(** ** Python values and exceptions *)

(** What [json.loads] builds: [None], [bool], [int], [float], [str], [list]
    and [dict] (insertion-ordered, looked up by key). *)
Inductive json : Type :=
  | JNull
  | JBool (b : bool)
  | JInt (z : Z)
  | JFloat (f : float)
  | JStr (s : string)
  | JArr (items : list json)
  | JObj (fields : list (string * json)).

(** The exception classes the analysis can meet; all derive from
    [Exception]. *)
Inductive exn : Type :=
  | AttributeError
  | TypeError
  | OverflowError
  | KeyError
  | IndexError
  | JSONDecodeError
  | HTTPError
  | RequestException.

Inductive outcome (A : Type) : Type :=
  | Returned (a : A)
  | Raised (e : exn).

Arguments Returned {A} a.
Arguments Raised {A} e.

Definition bind {A B : Type} (m : outcome A) (k : A -> outcome B) : outcome B :=
  match m with
  | Returned a => k a
  | Raised e => Raised e
  end.

Notation "x <- m ;; k" := (bind m (fun x => k))
  (at level 61, m at next level, right associativity).

(** Lookup in an insertion-ordered dictionary. *)
Fixpoint assoc {V : Type} (k : string) (d : list (string * V)) : option V :=
  match d with
  | [] => None
  | (k', v) :: rest => if String.eqb k k' then Some v else assoc k rest
  end.

Module Py.

Import PyStr PyFloat.
Open Scope string_scope.

(** [d.get(k, dflt)]: only a [dict] has the method. *)
Definition get (d : json) (k : string) (dflt : json) : outcome json :=
  match d with
  | JObj fields =>
      Returned (match assoc k fields with Some v => v | None => dflt end)
  | _ => Raised AttributeError
  end.

(** [v.lower()]: only a [str] has the method. *)
Definition str_lower (v : json) : outcome string :=
  match v with
  | JStr s => Returned (lower s)
  | _ => Raised AttributeError
  end.

(** [v.strip()]: only a [str] has the method. *)
Definition str_strip (v : json) : outcome string :=
  match v with
  | JStr s => Returned (strip s)
  | _ => Raised AttributeError
  end.

(** [v[k]] with a string subscript. *)
Definition getitem (v : json) (k : string) : outcome json :=
  match v with
  | JObj fields =>
      match assoc k fields with
      | Some x => Returned x
      | None => Raised KeyError
      end
  | _ => Raised TypeError
  end.

(** [v[0]] *)
Definition getitem0 (v : json) : outcome json :=
  match v with
  | JArr (x :: _) => Returned x
  | JArr [] => Raised IndexError
  | JStr (String c _) => Returned (JStr (String c EmptyString))
  | JStr EmptyString => Raised IndexError
  | JObj _ => Raised KeyError
  | _ => Raised TypeError
  end.

(** [v * q] for a float [q].  A [bool] or an [int] is converted first; a
    [str] or a [list] can only be repeated by an [int], and [None] and
    [dict] do not multiply at all. *)
Definition mul_float (v : json) (q : float) : outcome float :=
  match v with
  | JFloat f => Returned (f * q)%float
  | JInt z =>
      match float_of_int z with
      | Some f => Returned (f * q)%float
      | None => Raised OverflowError
      end
  | JBool b => Returned ((if b then 1 else 0) * q)%float
  | _ => Raised TypeError
  end.

End Py.

(* ================================================================== *)
(** ** The program *)

Import PyStr PyFloat B64 Py.
Open Scope string_scope.

(** The dictionary every analysis returns. *)
Record AnalysisResult : Type := {
  category : json;
  disposal_instruction : json;
  tip : json;
  co2_saved : float
}.

(** [CO2_IMPACT_MAP], in declaration order (a [dict] iterates in it). *)
Definition CO2_IMPACT_MAP : list (string * float) :=
  [ ("food", 0.5%float);
    ("vegetables", 0.3%float);
    ("fruit", 0.3%float);
    ("meat", 1.5%float);
    ("dairy", 0.8%float);
    ("bread", 0.4%float);
    ("plastic", 2.0%float);
    ("paper", 0.9%float);
    ("cardboard", 0.7%float);
    ("glass", 0.3%float);
    ("aluminum", 9.0%float);
    ("steel", 1.7%float);
    ("electronics", 5.0%float);
    ("batteries", 3.0%float);
    ("default", 0.5%float) ].

(** [CO2_IMPACT_MAP.get(k, dflt)] *)
Definition impact_get (k : string) (dflt : float) : float :=
  match assoc k CO2_IMPACT_MAP with
  | Some r => r
  | None => dflt
  end.

(** [CO2_IMPACT_MAP[k]] *)
Definition impact_getitem (k : string) : outcome float :=
  match assoc k CO2_IMPACT_MAP with
  | Some r => Returned r
  | None => Raised KeyError
  end.

(** [any(word in s for word in words)] *)
Definition any_in (words : list string) (s : string) : bool :=
  existsb (fun word => contains word s) words.

(** [get_mock_ai_response(item_name, quantity)] *)
Definition get_mock_ai_response (item_name : string) (quantity : float)
  : AnalysisResult :=
  let item_lower := lower item_name in
  let '(category, instruction, tip) :=
    if any_in ["food"; "meat"; "vegetable"; "fruit"; "bread"; "dairy"] item_lower then
      ("food",
       "Compost " ++ item_name ++ " if possible. Otherwise, dispose in food waste bin.",
       "Plan meals to reduce " ++ item_name ++ " waste.")
    else if any_in ["plastic"; "bottle"; "container"] item_lower then
      ("recyclable",
       "Rinse " ++ item_name ++ ", remove labels, place in recycling bin.",
       "Use reusable alternatives instead of " ++ item_name ++ ".")
    else if any_in ["paper"; "cardboard"; "box"] item_lower then
      ("recyclable",
       "Flatten " ++ item_name ++ " and recycle paper components.",
       "Go digital to reduce paper waste.")
    else if any_in ["battery"; "electronic"] item_lower then
      ("hazardous",
       "Take " ++ item_name ++ " to hazardous waste collection center.",
       "Use rechargeable alternatives.")
    else
      ("other",
       "Dispose of " ++ item_name ++ " in regular waste.",
       "Check if it can be reused, donated, or repaired.") in
  let co2_rate := impact_get category 0.5%float in
  let co2_saved := round2 (quantity * 0.5 * co2_rate)%float in
  {| category := JStr category;
     disposal_instruction := JStr instruction;
     tip := JStr tip;
     co2_saved := co2_saved |}.

(** The loop [for key in CO2_IMPACT_MAP: if key in item_name.lower() or
    key in category.lower(): co2_rate = CO2_IMPACT_MAP[key]; break],
    started with the rate [co2_rate]. *)
Fixpoint scan_keys (keys : list string) (item_name category : string)
    (co2_rate : float) : outcome float :=
  match keys with
  | [] => Returned co2_rate
  | key :: rest =>
      if contains key (lower item_name) || contains key (lower category)
      then impact_getitem key
      else scan_keys rest item_name category co2_rate
  end.

(** Lines 154 to 158: the direct lookup, then the scan over the keys. *)
Definition co2_rate_for (item_name category : string) : outcome float :=
  dflt <- impact_getitem "default" ;;
  let co2_rate := impact_get category dflt in
  scan_keys (map fst CO2_IMPACT_MAP) item_name category co2_rate.

(** Lines 152 to 166 of [get_ai_waste_analysis]: what is done with the
    decoded reply [ai_data], outside the [try] block. *)
Definition estimate_from_reply (ai_data : json) (item_name : string)
    (quantity : float) : outcome AnalysisResult :=
  c <- get ai_data "category" (JStr "default") ;;
  category <- str_lower c ;;
  w <- get ai_data "estimated_weight_kg" (JFloat 0.5%float) ;;
  weight <- mul_float w quantity ;;
  co2_rate <- co2_rate_for item_name category ;;
  let co2_saved := round2 (weight * co2_rate)%float in
  r_category <- get ai_data "category" (JStr "other") ;;
  r_instruction <- get ai_data "disposal_instruction" (JStr "Please recycle responsibly.") ;;
  r_tip <- get ai_data "tip" (JStr "Reduce, reuse, recycle.") ;;
  Returned {| category := r_category;
              disposal_instruction := r_instruction;
              tip := r_tip;
              co2_saved := co2_saved |}.

(** The request handed to [requests.post].  The prompt is kept as the three
    values its template interpolates. *)
Record request : Type := {
  url : string;
  authorization : string;
  model : string;
  prompt : string * float * string;
  temperature : float;
  max_tokens : Z;
  timeout : Z
}.

(** What [requests.post] does: it raises, or it returns a response with a
    status code and a body that [response.json()] decodes or not. *)
Inductive http_reply : Type :=
  | NoResponse
  | Response (status : Z) (body : option json).

(** [response.raise_for_status()] *)
Definition raise_for_status (status : Z) : outcome unit :=
  if ((400 <=? status) && (status <? 600))%Z then Raised HTTPError
  else Returned tt.

(** Lines 145 to 147: the code fence is dropped with the first and the last
    line. *)
Definition unfence (ai_content : string) : string :=
  if startswith "```" ai_content
  then join_lines (slice_1_m1 (split_lines ai_content))
  else ai_content.

(** Lines 141 to 148: the body of the [try] block, given what the endpoint
    answered. *)
Definition remote_reply (json_loads : string -> option json)
    (reply : http_reply) : outcome json :=
  match reply with
  | NoResponse => Raised RequestException
  | Response status body =>
      _ <- raise_for_status status ;;
      result <- match body with
                | Some j => Returned j
                | None => Raised JSONDecodeError
                end ;;
      choices <- getitem result "choices" ;;
      choice <- getitem0 choices ;;
      message <- getitem choice "message" ;;
      content <- getitem message "content" ;;
      ai_content <- str_strip content ;;
      match json_loads (unfence ai_content) with
      | Some ai_data => Returned ai_data
      | None => Raised JSONDecodeError
      end
  end.

(** [not api_key] *)
Definition no_credential (api_key : option string) : bool :=
  match api_key with
  | None => true
  | Some k => negb (nonempty k)
  end.

Definition build_request (api_key item_name : string) (quantity : float)
    (user_location : string) : request :=
  {| url := "https://api.bytez.com/v1/chat/completions";
     authorization := "Bearer " ++ api_key;
     model := "qwen3-4b-instruct-2507";
     prompt := (item_name, quantity, user_location);
     temperature := 0.7%float;
     max_tokens := 500;
     timeout := 30 |}.

(** [get_ai_waste_analysis(item_name, quantity, user_location)], in the
    environment [environ] and against the endpoint [post].  The second
    component lists the requests that were posted. *)
Definition get_ai_waste_analysis
    (json_loads : string -> option json)
    (environ : list (string * string))
    (post : request -> http_reply)
    (item_name : string) (quantity : float) (user_location : string)
  : outcome AnalysisResult * list request :=
  let api_key := assoc "BYTEZ_API_KEY" environ in
  if no_credential api_key then
    (Returned (get_mock_ai_response item_name quantity), [])
  else
    let req := build_request (match api_key with Some k => k | None => EmptyString end)
                 item_name quantity user_location in
    match remote_reply json_loads (post req) with
    | Raised _ => (Returned (get_mock_ai_response item_name quantity), [req])
    | Returned ai_data => (estimate_from_reply ai_data item_name quantity, [req])
    end.

(** The value of [user_location] when the caller leaves it out. *)
Definition default_location : string := "general".

(* ================================================================== *)
(** ** The design document's reading of the lookup, and test fixtures *)

(** [key] occurs in the lowercased item name or the lowercased category. *)
Definition key_matches (item_name category key : string) : bool :=
  contains key (lower item_name) || contains key (lower category).

(** The lookup as the design document words it: the coefficient of the
    first key of the table, in declaration order, that occurs in the
    lowercased item name or category; the default coefficient when no key
    does. *)
Definition coefficient_for (item_name category : string) : float :=
  match find (fun kv => key_matches item_name category (fst kv)) CO2_IMPACT_MAP with
  | Some (_, r) => r
  | None => 0.5%float
  end.

(** A well-formed reply: [category], when present, is a string and
    [estimated_weight_kg], when present, is a number a double can hold. *)
Definition well_formed (fields : list (string * json)) : bool :=
  match assoc "category" fields with
  | None | Some (JStr _) => true
  | Some _ => false
  end &&
  match assoc "estimated_weight_kg" fields with
  | None | Some (JFloat _) => true
  | Some (JInt z) => match float_of_int z with Some _ => true | None => false end
  | Some _ => false
  end.

(** The reply's [estimated_weight_kg], 0.5 when absent. *)
Definition reply_weight (fields : list (string * json)) : float :=
  match assoc "estimated_weight_kg" fields with
  | Some (JFloat f) => f
  | Some (JInt z) => match float_of_int z with Some f => f | None => 0.5%float end
  | _ => 0.5%float
  end.

(** The reply's [category] as the lookup reads it. *)
Definition reply_category (fields : list (string * json)) : string :=
  match assoc "category" fields with
  | Some (JStr c) => c
  | _ => "default"
  end.

(** A reply the estimate is sound for: well formed, with a category that,
    when present, is not empty and a weight that is not negative. *)
Definition benign_reply (ai_data : json) : bool :=
  match ai_data with
  | JObj fields =>
      well_formed fields
      && match assoc "category" fields with
         | Some (JStr c) => nonempty c
         | _ => true
         end
      && ge0 (reply_weight fields)
  | _ => false
  end.

(** [d.get(k, dflt)] on the fields of a dictionary. *)
Definition field_or (fields : list (string * json)) (k : string) (dflt : json) : json :=
  match assoc k fields with
  | Some v => v
  | None => dflt
  end.

(** The chat-completion envelope around a message text. *)
Definition envelope (content : string) : json :=
  JObj [("choices", JArr [JObj [("message", JObj [("content", JStr content)])]])].

(** An endpoint that answers every request with status 200 and [content]. *)
Definition post_fixture (content : string) : request -> http_reply :=
  fun _ => Response 200 (Some (envelope content)).

(** The JSON text of an object with an empty category and a weight of
    minus one. *)
Definition text_empty_category : string :=
  "{" ++ DQ ++ "category" ++ DQ ++ ": " ++ DQ ++ DQ ++ ", "
      ++ DQ ++ "estimated_weight_kg" ++ DQ ++ ": -1.0}".

(** [json.loads] on the texts used as inputs below: an empty array, the
    object above and an empty object.  No other text is given to it. *)
Definition json_loads_fixture (s : string) : option json :=
  if String.eqb s "[]" then Some (JArr [])
  else if String.eqb s text_empty_category then
    Some (JObj [("category", JStr EmptyString);
                ("estimated_weight_kg", JFloat (-1)%float)])
  else if String.eqb s "{}" then Some (JObj [])
  else None.

(** A reply text inside a code fence: the opening line with its language
    tag, the body, the closing line, and blanks around the whole. *)
Definition fenced (before lang body after : string) : string :=
  before ++ "```" ++ lang ++ String LF (body ++ String LF ("```" ++ after)).

(** No line feed in [s]. *)
Fixpoint one_line (s : string) : bool :=
  match s with
  | EmptyString => true
  | String c s' => negb (Ascii.eqb c LF) && one_line s'
  end.

(** Only blanks in [s]. *)
Fixpoint blank (s : string) : bool :=
  match s with
  | EmptyString => true
  | String c s' => is_space c && blank s'
  end.

(** The keyword groups of the first two branches of the classifier. *)
Definition food_words : list string :=
  ["food"; "meat"; "vegetable"; "fruit"; "bread"; "dairy"].

Definition plastic_words : list string := ["plastic"; "bottle"; "container"].

(** The tips of the three branches whose tip is a fixed sentence. *)
Definition fixed_tips : list string :=
  ["Go digital to reduce paper waste.";
   "Use rechargeable alternatives.";
   "Check if it can be reused, donated, or repaired."].

(** The reply of the remote-success scenario. *)
Definition plastic_reply : list (string * json) :=
  [("category", JStr "Plastic");
   ("estimated_weight_kg", JFloat 0.2%float);
   ("disposal_instruction", JStr "...");
   ("tip", JStr "...")].

(** An environment with a credential. *)
Definition environ_fixture : list (string * string) :=
  [("BYTEZ_API_KEY", "secret")].

(* ================================================================== *)
(** ** Readings of the remote path *)

(** A reply the code after the [try] block gets through: an object whose
    [category], when present, is a string and whose [estimated_weight_kg],
    when present, is a float, a bool, or an int a double can hold. *)
Definition estimable (ai_data : json) : bool :=
  match ai_data with
  | JObj fields =>
      match assoc "category" fields with
      | None | Some (JStr _) => true
      | Some _ => false
      end &&
      match assoc "estimated_weight_kg" fields with
      | None | Some (JFloat _) | Some (JBool _) => true
      | Some (JInt z) => match float_of_int z with Some _ => true | None => false end
      | Some _ => false
      end
  | _ => false
  end.


(* ================================================================== *)
(** ** The database rows and the dashboard helpers *)

From Stdlib Require Import DecimalString.

(** A row of [users]. *)
Module User.
Record t : Type := {
  id : Z;
  username : string;
  email : string;
  password_hash : string;
  created_at : Z
}.
End User.

(** A row of [waste_logs], as the application reads it back.  [category],
    [disposal_instruction] and [tip] are nullable text; a timestamp is a
    count of microseconds. *)
Module WasteLog.
Record t : Type := {
  id : Z;
  user_id : Z;
  item_name : string;
  category : option string;
  quantity : float;
  disposal_instruction : option string;
  tip : option string;
  co2_saved : float;
  timestamp : Z
}.
End WasteLog.

(** [d.get(k, dflt)] and [d[k] = v] on an insertion-ordered dictionary:
    a present key keeps its place, a new key goes last. *)
Definition dict_get {V : Type} (d : list (string * V)) (k : string) (dflt : V) : V :=
  match assoc k d with
  | Some v => v
  | None => dflt
  end.

Fixpoint dict_set {V : Type} (k : string) (v : V) (d : list (string * V))
  : list (string * V) :=
  match d with
  | [] => [(k, v)]
  | (k', v') :: rest =>
      if String.eqb k k' then (k, v) :: rest else (k', v') :: dict_set k v rest
  end.

(** [log.category or 'other'] *)
Definition category_or_other (log : WasteLog.t) : string :=
  match WasteLog.category log with
  | Some c => if nonempty c then c else "other"
  | None => "other"
  end.

(** Lines 278 to 281 of [dashboard], and 350 to 353 of
    [api_category_breakdown]: the number of logs per category. *)
Definition category_counts (all_logs : list WasteLog.t) : list (string * Z) :=
  fold_left
    (fun counts log =>
       let cat := category_or_other log in
       dict_set cat (dict_get counts cat 0 + 1)%Z counts)
    all_logs [].

(** The sum of the values of a dictionary of counts. *)
Definition total_count (counts : list (string * Z)) : Z :=
  fold_right (fun kv acc => (snd kv + acc)%Z) 0%Z counts.

(** How many logs have the effective category [cat]. *)
Definition logs_in_category (cat : string) (logs : list WasteLog.t) : Z :=
  Z.of_nat (List.length
              (filter (fun log => String.eqb (category_or_other log) cat) logs)).




(** A Python number: what [sum] and [round] return. *)
Inductive number : Type :=
  | NInt (z : Z)
  | NFloat (f : float).


(** One entry of the weekly trend. *)
Module WeekStat.
Record t : Type := {
  week : string;
  items : Z;
  co2_saved : number
}.
End WeekStat.





(* ================================================================== *)
(** ** The routes *)

(** What a view can raise: an exception of the analysis, the [ValueError]
    of [float], or an error of the database session. *)
Inductive raised : Type :=
  | Exn (e : exn)
  | ValueError
  | DatabaseError.

(** A flashed text: a literal, or the [f'Error: {e}'] of [log_waste]. *)
Inductive message : Type :=
  | Text (s : string)
  | ErrorText (e : raised).

(** A value of the [session] dictionary: the user id, the user name, or
    the list of flashed (category, message) pairs that [flash] keeps under
    the key [_flashes]. *)
Inductive sval : Type :=
  | SInt (z : Z)
  | SStr (s : string)
  | SFlashes (l : list (string * message)).

(** The tables and the session of one browser. *)
Record site : Type := {
  users : list User.t;
  waste_logs : list WasteLog.t;
  session : list (string * sval)
}.

Inductive http_method : Type := GET | POST.

(** What a view returns: [redirect(url_for(endpoint))], with the log id
    for [view_log]; [render_template(template)], with the log for
    [view_log.html]; the 404 of [get_or_404]; or a JSON body. *)
Inductive response : Type :=
  | Redirect (endpoint : string) (log_id : option Z)
  | Render (template : string) (log : option WasteLog.t)
  | NotFound
  | JsonCounts (counts : list (string * Z))
  | JsonTrend (trend : list WeekStat.t).

Inductive reply : Type :=
  | Responded (r : response)
  | Failed (e : raised).

(** One request served: the reply, the state it leaves, and the requests
    posted to the advisor on the way. *)
Record step : Type := {
  result : reply;
  after : site;
  posted : list request
}.

(** The [WasteLog] object that [log_waste] hands to the database session. *)
Module NewLog.
Record t : Type := {
  user_id : sval;
  item_name : string;
  category : json;
  quantity : float;
  disposal_instruction : json;
  tip : json;
  co2_saved : float
}.
End NewLog.

(** What the views take from outside: the JSON parser, the process
    environment and the advisor endpoint; [float] on a form text ([None]
    is its [ValueError]); the commit of a new log ([None] when the session
    raises, else the table and the id of the row); the id the database
    gives a new user; and werkzeug's two password functions. *)
Record externals : Type := {
  ext_json_loads : string -> option json;
  ext_environ : list (string * string);
  ext_post : request -> http_reply;
  ext_float : string -> option float;
  ext_add_log : list WasteLog.t -> NewLog.t -> option (list WasteLog.t * Z);
  ext_user_id : list User.t -> Z;
  ext_generate_password_hash : string -> string;
  ext_check_password_hash : string -> option string -> outcome bool
}.

(** [k in d] *)
Definition has_key {V : Type} (k : string) (d : list (string * V)) : bool :=
  match assoc k d with
  | Some _ => true
  | None => false
  end.

(** [flash(message, category)]: the pair is appended to the session's
    [_flashes]. *)
Definition flash (m : message) (category : string) (st : site) : site :=
  let flashes := match assoc "_flashes" (session st) with
                 | Some (SFlashes l) => l
                 | _ => []
                 end in
  {| users := users st;
     waste_logs := waste_logs st;
     session := dict_set "_flashes" (SFlashes (flashes ++ [(category, m)])%list) (session st) |}.

(** [not s] for a form field. *)
Definition missing (s : option string) : bool :=
  match s with
  | None => true
  | Some t => negb (nonempty t)
  end.

(** The decorator [login_required]. *)
Definition login_required (f : site -> step) (st : site) : step :=
  if negb (has_key "user_id" (session st)) then
    {| result := Responded (Redirect "login" None);
       after := flash (Text "Please log in to access this page.") "warning" st;
       posted := [] |}
  else f st.

(** [index] *)
Definition index (st : site) : step :=
  {| result := Responded (if has_key "user_id" (session st)
                          then Redirect "dashboard" None
                          else Render "index.html" None);
     after := st;
     posted := [] |}.

(** [User.query.filter_by(username=username).first()] *)
Definition user_by_username (table : list User.t) (username : option string)
  : option User.t :=
  match username with
  | None => None
  | Some u => find (fun row => String.eqb (User.username row) u) table
  end.

(** [User.query.filter_by(email=email).first()] *)
Definition user_by_email (table : list User.t) (email : option string)
  : option User.t :=
  match email with
  | None => None
  | Some e => find (fun row => String.eqb (User.email row) e) table
  end.

(** [db.session.add(user); db.session.commit()] on a table whose
    [username] and [email] columns are unique. *)
Definition add_user (ext : externals) (now : Z) (table : list User.t)
    (username email password_hash : string) : option (list User.t) :=
  if existsb (fun row => String.eqb (User.username row) username) table
     || existsb (fun row => String.eqb (User.email row) email) table
  then None
  else Some (table ++ [{| User.id := ext_user_id ext table;
                          User.username := username;
                          User.email := email;
                          User.password_hash := password_hash;
                          User.created_at := now |}])%list.

Definition redirect_with (endpoint : string) (m : string) (category : string)
    (st : site) : step :=
  {| result := Responded (Redirect endpoint None);
     after := flash (Text m) category st;
     posted := [] |}.

(** [register] *)
Definition register (ext : externals) (now : Z) (method : http_method)
    (form : list (string * string)) (st : site) : step :=
  match method with
  | POST =>
      let username := assoc "username" form in
      let email := assoc "email" form in
      let password := assoc "password" form in
      let confirm_password := assoc "confirm_password" form in
      match username, email, password with
      | Some u, Some e, Some p =>
          if missing username || missing email || missing password then
            redirect_with "register" "All fields are required." "danger" st
          else if negb (match confirm_password with
                        | Some c => String.eqb p c
                        | None => false
                        end) then
            redirect_with "register" "Passwords do not match." "danger" st
          else if (String.length p <? 6)%nat then
            redirect_with "register" "Password must be at least 6 characters." "danger" st
          else if match user_by_username (users st) username with
                  | Some _ => true | None => false end then
            redirect_with "register" "Username exists." "danger" st
          else if match user_by_email (users st) email with
                  | Some _ => true | None => false end then
            redirect_with "register" "Email registered." "danger" st
          else
            match add_user ext now (users st) u e (ext_generate_password_hash ext p) with
            | None => {| result := Failed DatabaseError; after := st; posted := [] |}
            | Some table =>
                redirect_with "login" "Registration successful! Login now." "success"
                  {| users := table; waste_logs := waste_logs st; session := session st |}
            end
      | _, _, _ => redirect_with "register" "All fields are required." "danger" st
      end
  | GET => {| result := Responded (Render "register.html" None); after := st; posted := [] |}
  end.

(** [login] *)
Definition login (ext : externals) (method : http_method)
    (form : list (string * string)) (st : site) : step :=
  match method with
  | POST =>
      let username := assoc "username" form in
      let password := assoc "password" form in
      let invalid :=
        {| result := Responded (Render "login.html" None);
           after := flash (Text "Invalid username or password.") "danger" st;
           posted := [] |} in
      match user_by_username (users st) username with
      | None => invalid
      | Some user =>
          match ext_check_password_hash ext (User.password_hash user) password with
          | Raised e => {| result := Failed (Exn e); after := st; posted := [] |}
          | Returned false => invalid
          | Returned true =>
              let s1 := dict_set "user_id" (SInt (User.id user)) (session st) in
              let s2 := dict_set "username" (SStr (User.username user)) s1 in
              {| result := Responded (Redirect "dashboard" None);
                 after := flash (Text ("Welcome back, " ++ User.username user ++ "!"))
                            "success"
                            {| users := users st; waste_logs := waste_logs st;
                               session := s2 |};
                 posted := [] |}
          end
      end
  | GET => {| result := Responded (Render "login.html" None); after := st; posted := [] |}
  end.

(** [logout]: [session.clear()] drops the pending flashes with the rest. *)
Definition logout (st : site) : step :=
  {| result := Responded (Redirect "index" None);
     after := flash (Text "Logged out.") "info"
                {| users := users st; waste_logs := waste_logs st; session := [] |};
     posted := [] |}.

(** The body of [log_waste], under its decorator below. *)
Definition log_waste_view (ext : externals) (method : http_method)
    (form : list (string * string)) (st : site) : step :=
  match method with
  | POST =>
      let item_name := assoc "item_name" form in
      match match assoc "quantity" form with
            | Some text => ext_float ext text
            | None => Some 1.0%float
            end with
      | None => {| result := Failed ValueError; after := st; posted := [] |}
      | Some quantity =>
          match item_name with
          | Some name =>
              if missing item_name then
                redirect_with "log_waste" "Enter an item name." "danger" st
              else
                let '(analysis, requests) :=
                  get_ai_waste_analysis (ext_json_loads ext) (ext_environ ext)
                    (ext_post ext) name quantity default_location in
                let failed (e : raised) :=
                  {| result := Responded (Redirect "log_waste" None);
                     after := flash (ErrorText e) "danger" st;
                     posted := requests |} in
                match analysis with
                | Raised e => failed (Exn e)
                | Returned ai_result =>
                    match assoc "user_id" (session st) with
                    | None => failed (Exn KeyError)
                    | Some uid =>
                        let log :=
                          {| NewLog.user_id := uid;
                             NewLog.item_name := name;
                             NewLog.category := category ai_result;
                             NewLog.quantity := quantity;
                             NewLog.disposal_instruction := disposal_instruction ai_result;
                             NewLog.tip := tip ai_result;
                             NewLog.co2_saved := co2_saved ai_result |} in
                        match ext_add_log ext (waste_logs st) log with
                        | None => failed DatabaseError
                        | Some (table, log_id) =>
                            {| result := Responded (Redirect "view_log" (Some log_id));
                               after := flash (Text "Waste logged!") "success"
                                          {| users := users st; waste_logs := table;
                                             session := session st |};
                               posted := requests |}
                        end
                    end
                end
          | None => redirect_with "log_waste" "Enter an item name." "danger" st
          end
      end
  | GET => {| result := Responded (Render "log_waste.html" None); after := st; posted := [] |}
  end.

(** [log_waste] *)
Definition log_waste (ext : externals) (method : http_method)
    (form : list (string * string)) : site -> step :=
  login_required (log_waste_view ext method form).

(** [WasteLog.query.get(log_id)] *)
Definition log_by_id (table : list WasteLog.t) (log_id : Z) : option WasteLog.t :=
  find (fun row => (WasteLog.id row =? log_id)%Z) table.

(** The body of [view_log]. *)
Definition view_log_view (log_id : Z) (st : site) : step :=
  match log_by_id (waste_logs st) log_id with
  | None => {| result := Responded NotFound; after := st; posted := [] |}
  | Some log =>
      match assoc "user_id" (session st) with
      | None => {| result := Failed (Exn KeyError); after := st; posted := [] |}
      | Some uid =>
          if negb (match uid with
                   | SInt u => (WasteLog.user_id log =? u)%Z
                   | _ => false
                   end) then
            redirect_with "dashboard" "Access denied." "danger" st
          else
            {| result := Responded (Render "view_log.html" (Some log));
               after := st; posted := [] |}
      end
  end.

(** [view_log] *)
Definition view_log (log_id : Z) : site -> step :=
  login_required (view_log_view log_id).

(** [WasteLog.query.filter_by(user_id=session['user_id']).all()] *)
Definition logs_of (table : list WasteLog.t) (uid : sval) : list WasteLog.t :=
  filter (fun row => match uid with
                     | SInt u => (WasteLog.user_id row =? u)%Z
                     | _ => false
                     end) table.

(** [api_category_breakdown] *)
Definition api_category_breakdown : site -> step :=
  login_required
    (fun st =>
       match assoc "user_id" (session st) with
       | None => {| result := Failed (Exn KeyError); after := st; posted := [] |}
       | Some uid =>
           {| result := Responded (JsonCounts (category_counts (logs_of (waste_logs st) uid)));
              after := st; posted := [] |}
       end).

(** The quantity [log_waste] reads from the form: [float] of the field,
    1.0 when the field is absent. *)
Definition form_quantity (ext : externals) (form : list (string * string))
  : option float :=
  match assoc "quantity" form with
  | Some text => ext_float ext text
  | None => Some 1.0%float
  end.

(** The flashed pairs that wait in a session. *)
Definition flashes (st : site) : list (string * message) :=
  match assoc "_flashes" (session st) with
  | Some (SFlashes l) => l
  | _ => []
  end.

(** Externals for examples: the parser, environment and endpoint of the
    fixtures above with the endpoint answering an empty array, a [float]
    that reads the text "2" only, a database that appends the row with the
    next id, and a password hash that is checked by comparison. *)
Definition externals_fixture : externals :=
  {| ext_json_loads := json_loads_fixture;
     ext_environ := environ_fixture;
     ext_post := post_fixture "[]";
     ext_float := fun text => if String.eqb text "2" then Some 2%float else None;
     ext_add_log := fun table log =>
       let log_id := (Z.of_nat (List.length table) + 1)%Z in
       Some ((table ++ [{| WasteLog.id := log_id;
                           WasteLog.user_id :=
                             match NewLog.user_id log with SInt u => u | _ => 0%Z end;
                           WasteLog.item_name := NewLog.item_name log;
                           WasteLog.category :=
                             match NewLog.category log with JStr c => Some c | _ => None end;
                           WasteLog.quantity := NewLog.quantity log;
                           WasteLog.disposal_instruction := None;
                           WasteLog.tip := None;
                           WasteLog.co2_saved := NewLog.co2_saved log;
                           WasteLog.timestamp := 0%Z |}])%list, log_id);
     ext_user_id := fun table => (Z.of_nat (List.length table) + 1)%Z;
     ext_generate_password_hash := fun p => "hash:" ++ p;
     ext_check_password_hash := fun h p =>
       match p with
       | Some t => Returned (String.eqb h ("hash:" ++ t))
       | None => Raised AttributeError
       end |}.

(** A site with one user, logged in. *)
Definition site_fixture : site :=
  {| users := [{| User.id := 1%Z; User.username := "ada"; User.email := "ada@example.org";
                  User.password_hash := "hash:secret1"; User.created_at := 0%Z |}];
     waste_logs := [];
     session := [("user_id", SInt 1%Z); ("username", SStr "ada")] |}.

(** A registration form. *)
Definition form_fixture : list (string * string) :=
  [("username", "bob"); ("email", "bob@example.org");
   ("password", "secret2"); ("confirm_password", "secret2")].

(** A form that logs two cans. *)
Definition waste_form_fixture : list (string * string) :=
  [("item_name", "can"); ("quantity", "2")].

(** The site of [site_fixture] with three logs: two of the user, of which
    one has no category, and one of somebody else. *)
Definition site_with_logs : site :=
  let row (log_id uid : Z) (cat : option string) :=
    {| WasteLog.id := log_id; WasteLog.user_id := uid; WasteLog.item_name := "jar";
       WasteLog.category := cat; WasteLog.quantity := 1%float;
       WasteLog.disposal_instruction := None; WasteLog.tip := None;
       WasteLog.co2_saved := 0.25%float; WasteLog.timestamp := 0%Z |} in
  {| users := users site_fixture;
     waste_logs := [row 1%Z 1%Z (Some "food"); row 2%Z 2%Z (Some "food"); row 3%Z 1%Z None];
     session := session site_fixture |}.

(* ================================================================== *)
(** ** Facts about strings *)

Section StringFacts.

Lemma startswith_app (k b : string) : startswith k (k ++ b) = true.
Proof.
  induction k as [|c k IH]; simpl.
  - reflexivity.
  - now rewrite Ascii.eqb_refl.
Qed.

Lemma contains_unfold (k s : string) :
  contains k s =
  startswith k s || match s with
                    | EmptyString => false
                    | String _ s' => contains k s'
                    end.
Proof. destruct s; reflexivity. Qed.

(** An occurrence in the middle of a text is found. *)
Lemma contains_middle (k a b : string) : contains k (a ++ k ++ b) = true.
Proof.
  induction a as [|c a IH].
  - simpl append. rewrite contains_unfold, startswith_app. reflexivity.
  - simpl append. rewrite contains_unfold, IH. apply orb_true_r.
Qed.

End StringFacts.
Section LookupFacts.

Lemma startswith_refl (k : string) : startswith k k = true.
Proof. induction k as [|c k IH]; simpl; [reflexivity | now rewrite Ascii.eqb_refl]. Qed.

Lemma contains_self (k : string) : contains k k = true.
Proof. now rewrite contains_unfold, startswith_refl. Qed.

Lemma assoc_in {V : Type} (k : string) (d : list (string * V)) (v : V) :
  assoc k d = Some v -> In k (map fst d).
Proof.
  induction d as [|[k' v'] d IH]; simpl; [discriminate|].
  destruct (String.eqb_spec k k') as [->|_]; [now left | right; auto].
Qed.

(** The keys of the table are their own lowercase form. *)
Lemma keys_lowercase (key : string) :
  In key (map fst CO2_IMPACT_MAP) -> lower key = key.
Proof.
  simpl. intros H.
  repeat (destruct H as [<-|H]; [reflexivity|]).
  contradiction.
Qed.

(** A category that no key occurs in is not a key itself. *)
Lemma impact_get_miss (category : string) (dflt : float) :
  (forall key, In key (map fst CO2_IMPACT_MAP) ->
               contains key (lower category) = false) ->
  impact_get category dflt = dflt.
Proof.
  intros H. unfold impact_get.
  destruct (assoc category CO2_IMPACT_MAP) as [r|] eqn:E; [|reflexivity].
  apply assoc_in in E.
  specialize (H category E).
  rewrite (keys_lowercase category E), contains_self in H.
  discriminate.
Qed.

Ltac scan_step :=
  match goal with
  | |- context [if ?c || ?d then _ else _] =>
      let E := fresh "E" in
      destruct (c || d) eqn:E; [reflexivity|]
  end.

(** The direct lookup before the scan never decides the rate. *)
Lemma scan_without_lookup (item_name category : string) :
  co2_rate_for item_name category =
  scan_keys (map fst CO2_IMPACT_MAP) item_name category 0.5%float.
Proof.
  unfold co2_rate_for. simpl.
  repeat scan_step.
  f_equal. apply impact_get_miss.
  simpl. intros key H.
  repeat (destruct H as [<-|H];
          [ match goal with
            | E : contains ?k _ || contains ?k ?c = false |- contains ?k ?c = false =>
                apply orb_false_elim in E; exact (proj2 E)
            end | ]).
  contradiction.
Qed.

(** The scan returns the coefficient of the first key that occurs. *)
Lemma scan_first_match (item_name category : string) :
  scan_keys (map fst CO2_IMPACT_MAP) item_name category 0.5%float =
  Returned (coefficient_for item_name category).
Proof.
  unfold coefficient_for, key_matches. simpl.
  repeat scan_step.
  reflexivity.
Qed.

End LookupFacts.

(* ================================================================== *)
(** ** The impact table lookup *)

(** C4.  The lookup of the remote path is keyword containment with
    declaration-order precedence: for every item name and category it
    returns the coefficient of the first key of the table that occurs in
    the lowercased item name or in the lowercased category, and the default
    coefficient when none does.  For the item "old newspaper" and a reply
    without a category the first such key is "paper", so the rate is 0.9
    and not the default 0.5. *)
Theorem lookup_first_key_wins (item_name category : string) :
  co2_rate_for item_name category = Returned (coefficient_for item_name category)
  /\ find (fun kv => key_matches "old newspaper" "default" (fst kv)) CO2_IMPACT_MAP
     = Some ("paper", 0.9%float)
  /\ co2_rate_for "old newspaper" "default" = Returned 0.9%float
  /\ (exists r, estimate_from_reply (JObj []) "old newspaper" 1%float = Returned r
                /\ co2_saved r = round2 (0.5 * 1 * 0.9)%float).
Proof.
  split; [|split; [|split]].
  - rewrite scan_without_lookup. apply scan_first_match.
  - reflexivity.
  - reflexivity.
  - eexists. split; reflexivity.
Qed.

(** C10.  The direct category-keyed lookup that precedes the scan is
    redundant: for every item name and category the rate is the one the
    scan alone computes when it starts from the table default, because a
    category that is a key of the table is matched by that key in the
    scan. *)
Theorem direct_lookup_redundant (item_name category : string) :
  co2_rate_for item_name category =
  (dflt <- impact_getitem "default" ;;
   scan_keys (map fst CO2_IMPACT_MAP) item_name category dflt)
  /\ forallb (fun key => key_matches item_name key key)
             (map fst CO2_IMPACT_MAP) = true.
Proof.
  split.
  - rewrite scan_without_lookup. reflexivity.
  - unfold key_matches. simpl. now rewrite !orb_true_r.
Qed.

(* ================================================================== *)
(** ** The heuristic classifier *)

Section ClassifierFacts.

(** Whatever the branch, the rate of the fallback path is 0.5. *)
Lemma mock_co2_saved (item_name : string) (quantity : float) :
  co2_saved (get_mock_ai_response item_name quantity)
  = round2 (quantity * 0.5 * 0.5)%float.
Proof.
  unfold get_mock_ai_response.
  repeat match goal with
         | |- context [if any_in ?ws ?s then _ else _] => destruct (any_in ws s)
         end; reflexivity.
Qed.

(** The category of the fallback path is one of four words. *)
Lemma mock_category (item_name : string) (quantity : float) :
  In (category (get_mock_ai_response item_name quantity))
     [JStr "food"; JStr "recyclable"; JStr "hazardous"; JStr "other"].
Proof.
  unfold get_mock_ai_response.
  repeat match goal with
         | |- context [if any_in ?ws ?s then _ else _] => destruct (any_in ws s)
         end; simpl; tauto.
Qed.

End ClassifierFacts.

(** C3 (fallback scenario, as the code has it).  With no credential
    configured, "banana peel" with quantity 2 is classified "other", since
    none of the food keywords occurs in it, and co2_saved is
    round(2 * 0.5 * 0.5, 2) = 0.5; no request is posted. *)
Theorem banana_peel_fallback
    (json_loads : string -> option json) (post : request -> http_reply)
    (user_location : string) :
  get_ai_waste_analysis json_loads [] post "banana peel" 2%float user_location
  = (Returned {| category := JStr "other";
                 disposal_instruction := JStr "Dispose of banana peel in regular waste.";
                 tip := JStr "Check if it can be reused, donated, or repaired.";
                 co2_saved := 0.5%float |}, [])
  /\ round2 (2 * 0.5 * 0.5)%float = 0.5%float.
Proof. split; reflexivity. Qed.

(** C3, refuted as stated: the category of "banana peel" is "other", not
    "food", because no food keyword occurs in the name. *)
Lemma banana_peel_is_other :
  category (get_mock_ai_response "banana peel" 2%float) = JStr "other"
  /\ any_in food_words (lower "banana peel") = false
  /\ String.eqb "other" "food" = false.
Proof. repeat split. Qed.

(** C5 (as the code has it).  Every branch of the classifier writes the
    item name verbatim into the disposal instruction.  The tip contains it
    in the food and plastic branches; in the paper, battery and default
    branches the tip is a fixed sentence. *)
Theorem instruction_names_item (item_name : string) (quantity : float) :
  exists instruction tip_text,
    disposal_instruction (get_mock_ai_response item_name quantity) = JStr instruction
    /\ tip (get_mock_ai_response item_name quantity) = JStr tip_text
    /\ contains item_name instruction = true
    /\ if any_in food_words (lower item_name) || any_in plastic_words (lower item_name)
       then contains item_name tip_text = true
       else In tip_text fixed_tips.
Proof.
  unfold get_mock_ai_response, food_words, plastic_words, fixed_tips.
  repeat match goal with
         | |- context [if any_in ?ws ?s then _ else _] => destruct (any_in ws s)
         end;
    (do 2 eexists; split; [reflexivity|]; split; [reflexivity|]; split;
     [apply contains_middle | ]);
    cbv beta iota delta [orb];
    first [apply contains_middle | simpl; tauto].
Qed.

(** C5, refuted as stated: for "old newspaper" the tip is the fixed sentence
    of the paper branch, in which the item name does not occur. *)
Lemma tip_without_item_name :
  exists tip_text,
    tip (get_mock_ai_response "old newspaper" 1%float) = JStr tip_text
    /\ contains "old newspaper" tip_text = false.
Proof. eexists. split; reflexivity. Qed.

(** C8.  Without a credential (the variable unset or empty) no request is
    posted and the result is the classifier's, whatever the parser, the
    endpoint and the location; so two calls with the same item name and
    quantity return the same record. *)
Theorem no_credential_deterministic
    (json_loads json_loads' : string -> option json)
    (environ environ' : list (string * string))
    (post post' : request -> http_reply)
    (item_name : string) (quantity : float) (user_location : string)
    (H : no_credential (assoc "BYTEZ_API_KEY" environ) = true)
    (H' : no_credential (assoc "BYTEZ_API_KEY" environ') = true) :
  get_ai_waste_analysis json_loads environ post item_name quantity user_location
  = (Returned (get_mock_ai_response item_name quantity), [])
  /\ get_ai_waste_analysis json_loads environ post item_name quantity user_location
     = get_ai_waste_analysis json_loads' environ' post' item_name quantity user_location.
Proof.
  unfold get_ai_waste_analysis. rewrite H, H'. split; reflexivity.
Qed.

Lemma no_credential_deterministic_witness :
  no_credential (assoc "BYTEZ_API_KEY" []) = true
  /\ no_credential (assoc "BYTEZ_API_KEY" [("BYTEZ_API_KEY", EmptyString)]) = true
  /\ get_ai_waste_analysis json_loads_fixture [] (fun _ => NoResponse)
       "glass jar" 4%float "general"
     = (Returned (get_mock_ai_response "glass jar" 4%float), [])
  /\ get_ai_waste_analysis json_loads_fixture [] (fun _ => NoResponse)
       "glass jar" 4%float "general"
     = get_ai_waste_analysis (fun _ => None) [("BYTEZ_API_KEY", EmptyString)]
         (post_fixture "[]") "glass jar" 4%float "general".
Proof.
  split; [reflexivity|]. split; [reflexivity|].
  exact (no_credential_deterministic json_loads_fixture (fun _ => None)
           [] [("BYTEZ_API_KEY", EmptyString)]
           (fun _ => NoResponse) (post_fixture "[]")
           "glass jar" 4%float "general" eq_refl eq_refl).
Defined.

(* ================================================================== *)
(** ** The remote path *)

Section RemoteFacts.

(** What the code after the [try] block computes from a well-formed
    reply. *)
Lemma estimate_well_formed (fields : list (string * json))
    (item_name : string) (quantity : float) :
  well_formed fields = true ->
  estimate_from_reply (JObj fields) item_name quantity
  = Returned
      {| category := field_or fields "category" (JStr "other");
         disposal_instruction :=
           field_or fields "disposal_instruction" (JStr "Please recycle responsibly.");
         tip := field_or fields "tip" (JStr "Reduce, reuse, recycle.");
         co2_saved :=
           round2 (reply_weight fields * quantity
                   * coefficient_for item_name (lower (reply_category fields)))%float |}.
Proof.
  unfold well_formed, estimate_from_reply, reply_weight, reply_category, field_or, get.
  intros H. apply andb_prop in H. destruct H as [Hc Hw].
  destruct (assoc "category" fields) as [[| | | |c| |]|]; try discriminate Hc;
    destruct (assoc "estimated_weight_kg" fields) as [[| |z|w| | |]|];
    try discriminate Hw; cbn [bind str_lower mul_float];
    try (destruct (float_of_int z) as [f|]; [|discriminate Hw]);
    cbn [bind];
    rewrite scan_without_lookup, scan_first_match; reflexivity.
Qed.

End RemoteFacts.

(** C6.  On the remote-success path, for every well-formed reply, the
    weight is the reply's estimated_weight_kg (0.5 when absent) times the
    quantity and co2_saved is that weight times the coefficient, rounded to
    two decimals.  The reply with category "Plastic" and weight 0.2, for
    quantity 3 and an item in which no key listed before "plastic" occurs,
    gets the coefficient 2.0 of "plastic" and co2_saved 1.2. *)
Theorem remote_estimate (fields : list (string * json))
    (item_name : string) (quantity : float)
    (Hwf : well_formed fields = true) :
  (exists r,
     estimate_from_reply (JObj fields) item_name quantity = Returned r
     /\ co2_saved r
        = round2 (reply_weight fields * quantity
                  * coefficient_for item_name (lower (reply_category fields)))%float)
  /\ reply_weight [] = 0.5%float
  /\ (existsb (fun key => contains key (lower item_name))
        ["food"; "vegetables"; "fruit"; "meat"; "dairy"; "bread"] = false ->
      coefficient_for item_name (lower "Plastic") = 2.0%float
      /\ exists r,
           estimate_from_reply (JObj plastic_reply) item_name 3%float = Returned r
           /\ co2_saved r = 1.2%float).
Proof.
  split; [|split].
  - eexists. split; [apply (estimate_well_formed _ _ _ Hwf) | reflexivity].
  - reflexivity.
  - intros Ha.
    assert (Hc : coefficient_for item_name (lower "Plastic") = 2.0%float).
    { unfold coefficient_for, key_matches. simpl in Ha |- *.
      repeat match type of Ha with
             | ?c || _ = false =>
                 let E := fresh "E" in
                 destruct c eqn:E; [discriminate Ha|]; simpl in Ha |- *
             end.
      now rewrite orb_true_r. }
    split; [exact Hc|].
    eexists. split; [apply estimate_well_formed; reflexivity|].
    cbn [co2_saved]. change (reply_category plastic_reply) with "Plastic".
    rewrite Hc. reflexivity.
Qed.

Lemma remote_estimate_witness :
  well_formed plastic_reply = true
  /\ existsb (fun key => contains key (lower "water bottle"))
       ["food"; "vegetables"; "fruit"; "meat"; "dairy"; "bread"] = false
  /\ exists r,
       estimate_from_reply (JObj plastic_reply) "water bottle" 3%float = Returned r
       /\ co2_saved r = 1.2%float.
Proof.
  split; [reflexivity|]. split; [reflexivity|].
  exact (proj2 (proj2 (proj2 (remote_estimate plastic_reply "water bottle" 3%float eq_refl))
                  eq_refl)).
Defined.

(** C1, at inputs where the entry point raises.  With a credential set
    and an endpoint that answers with the JSON text of an empty array, the
    text decodes, the [try] block is left, and [ai_data.get] raises
    AttributeError; a category that is not a string raises
    AttributeError, a weight that is not a number TypeError, and an
    integer weight beyond the double range OverflowError. *)
Theorem raises_after_try :
  get_ai_waste_analysis json_loads_fixture environ_fixture (post_fixture "[]")
    "can" 1%float default_location
  = (Raised AttributeError, [build_request "secret" "can" 1%float default_location])
  /\ estimate_from_reply (JObj [("category", JNull)]) "can" 1%float
     = Raised AttributeError
  /\ estimate_from_reply (JObj [("estimated_weight_kg", JStr "heavy")]) "can" 1%float
     = Raised TypeError
  /\ estimate_from_reply (JObj [("estimated_weight_kg", JInt (10 ^ 400))]) "can" 1%float
     = Raised OverflowError.
Proof. repeat split; vm_compute; reflexivity. Qed.

(* ================================================================== *)
(** ** Code fences *)

Section FenceFacts.

Lemma append_assoc (a b c : string) : ((a ++ b) ++ c = a ++ (b ++ c))%string.
Proof. induction a as [|x a IH]; simpl; [reflexivity | now rewrite IH]. Qed.

Lemma lstrip_blank (ws s : string) : blank ws = true -> lstrip (ws ++ s) = lstrip s.
Proof.
  induction ws as [|c ws IH]; simpl; [reflexivity|].
  intros H. apply andb_prop in H. destruct H as [Hc Hws].
  rewrite Hc. auto.
Qed.

Lemma rstrip_blank (ws : string) : blank ws = true -> rstrip ws = EmptyString.
Proof.
  induction ws as [|c ws IH]; simpl; [reflexivity|].
  intros H. apply andb_prop in H. destruct H as [Hc Hws].
  now rewrite (IH Hws), Hc.
Qed.

Lemma rstrip_app_blank (s ws : string) :
  blank ws = true -> rstrip (s ++ ws) = rstrip s.
Proof.
  intros H. induction s as [|c s IH]; simpl.
  - now apply rstrip_blank.
  - now rewrite IH.
Qed.

Lemma rstrip_last (s : string) (c : ascii) :
  is_space c = false -> rstrip (s ++ String c EmptyString) = s ++ String c EmptyString.
Proof.
  intros Hc. induction s as [|a s IH]; simpl.
  - now rewrite Hc.
  - rewrite IH. destruct s; reflexivity.
Qed.

Lemma split_lines_nonempty (s : string) : split_lines s <> [].
Proof.
  destruct s as [|c s]; simpl; [discriminate|].
  destruct (Ascii.eqb c LF); [discriminate|].
  destruct (split_lines s); discriminate.
Qed.

Lemma split_one_line (s : string) : one_line s = true -> split_lines s = [s].
Proof.
  induction s as [|c s IH]; simpl; [reflexivity|].
  intros H. apply andb_prop in H. destruct H as [Hc Hs].
  apply negb_true_iff in Hc. now rewrite Hc, (IH Hs).
Qed.

(** The first line is split off at the first line feed. *)
Lemma split_first_line (a b : string) :
  one_line a = true -> split_lines (a ++ String LF b) = a :: split_lines b.
Proof.
  induction a as [|c a IH]; simpl.
  - reflexivity.
  - intros H. apply andb_prop in H. destruct H as [Hc Ha].
    apply negb_true_iff in Hc. now rewrite Hc, (IH Ha).
Qed.

(** The last line is split off at the last line feed. *)
Lemma split_last_line (s t : string) :
  one_line t = true -> split_lines (s ++ String LF t) = (split_lines s ++ [t])%list.
Proof.
  intros Ht. induction s as [|c s IH]; simpl.
  - now rewrite (split_one_line t Ht).
  - rewrite IH. destruct (Ascii.eqb c LF); [reflexivity|].
    pose proof (split_lines_nonempty s) as Hne.
    destruct (split_lines s); [contradiction | reflexivity].
Qed.

(** Joining the lines of a text gives the text back. *)
Lemma join_split (s : string) : join_lines (split_lines s) = s.
Proof.
  induction s as [|c s IH]; simpl; [reflexivity|].
  pose proof (split_lines_nonempty s) as Hne.
  destruct (Ascii.eqb_spec c LF) as [->|_].
  - destruct (split_lines s) as [|h t]; [contradiction|].
    cbn [join_lines]. now rewrite <- IH.
  - destruct (split_lines s) as [|h t]; [contradiction|].
    rewrite <- IH. destruct t; reflexivity.
Qed.

(** Stripping a fenced text removes the blanks around it. *)
Lemma strip_fenced (before lang body after : string) :
  blank before = true -> blank after = true ->
  strip (fenced before lang body after) = fenced EmptyString lang body EmptyString.
Proof.
  intros Hb Ha. unfold strip, fenced.
  rewrite (lstrip_blank _ _ Hb).
  set (tick := String (ascii_of_nat 96) EmptyString).
  assert (E : forall tail,
             "```" ++ lang ++ String LF (body ++ String LF ("```" ++ tail))
             = (("```" ++ lang ++ String LF (body ++ String LF "``")) ++ tick) ++ tail).
  { intros tail. subst tick. simpl. do 3 f_equal.
    rewrite !append_assoc. simpl. rewrite !append_assoc. reflexivity. }
  subst tick.
  change (lstrip ("```" ++ ?x)) with ("```" ++ x).
  rewrite (E after), (rstrip_app_blank _ _ Ha), rstrip_last by reflexivity.
  rewrite (E EmptyString). simpl. now rewrite !append_assoc.
Qed.

(** Dropping the first and the last line of a fenced text leaves the body. *)
Lemma unfence_fenced (lang body : string) :
  one_line lang = true ->
  unfence (fenced EmptyString lang body EmptyString) = body.
Proof.
  intros Hl. unfold unfence, fenced.
  change (startswith "```" (EmptyString ++ "```" ++ ?x)) with true. cbv iota.
  change (EmptyString ++ "```" ++ lang ++ ?x) with (("```" ++ lang) ++ x).
  rewrite split_first_line by exact Hl.
  rewrite split_last_line by reflexivity.
  unfold slice_1_m1. cbn [tl]. rewrite removelast_last.
  apply join_split.
Qed.

End FenceFacts.

(** C7.  A reply text wrapped in a code fence (an opening line of three
    backticks and a language tag, the JSON body, a closing line of three
    backticks, blanks around the whole) is stripped of its first and last
    line, and the text handed to the parser is the body; so the reply
    decodes to what the same body decodes to when it arrives unfenced. *)
Theorem fence_is_transparent
    (json_loads : string -> option json) (status : Z)
    (before lang body after : string)
    (Hbefore : blank before = true) (Hafter : blank after = true)
    (Hlang : one_line lang = true)
    (Hbody : strip body = body) (Hjson : startswith "```" body = false) :
  unfence (strip (fenced before lang body after)) = body
  /\ remote_reply json_loads (Response status (Some (envelope (fenced before lang body after))))
     = (_ <- raise_for_status status ;;
        match json_loads body with
        | Some ai_data => Returned ai_data
        | None => Raised JSONDecodeError
        end)
  /\ remote_reply json_loads (Response status (Some (envelope (fenced before lang body after))))
     = remote_reply json_loads (Response status (Some (envelope body))).
Proof.
  assert (E : unfence (strip (fenced before lang body after)) = body).
  { rewrite strip_fenced by assumption. now apply unfence_fenced. }
  assert (E' : unfence (strip body) = body).
  { rewrite Hbody. unfold unfence. now rewrite Hjson. }
  split; [exact E|].
  unfold remote_reply, envelope.
  destruct (raise_for_status status) as [[]|e]; cbn; rewrite ?E, ?E'; auto.
Qed.

Lemma fence_is_transparent_witness :
  blank " " = true /\ blank (String LF EmptyString) = true
  /\ one_line "json" = true
  /\ strip "{}" = "{}" /\ startswith "```" "{}" = false
  /\ remote_reply json_loads_fixture
       (Response 200 (Some (envelope (fenced " " "json" "{}" (String LF EmptyString)))))
     = remote_reply json_loads_fixture (Response 200 (Some (envelope "{}")))
  /\ remote_reply json_loads_fixture
       (Response 200 (Some (envelope (fenced " " "json" "{}" (String LF EmptyString)))))
     = Returned (JObj []).
Proof.
  do 5 (split; [reflexivity|]).
  split; [|reflexivity].
  exact (proj2 (proj2 (fence_is_transparent json_loads_fixture 200
                         " " "json" "{}" (String LF EmptyString)
                         eq_refl eq_refl eq_refl eq_refl eq_refl))).
Defined.

(* ================================================================== *)
(** ** Facts about binary64 arithmetic *)

Section Binary64Facts.

Local Open Scope Z_scope.

Lemma digits_mul_P52 (m : positive) :
  Zpos (digits2_pos (m * P52)) = Zpos (digits2_pos m) + 52.
Proof.
  rewrite Pos.mul_comm. unfold P52. cbn [Pos.mul digits2_pos]. lia.
Qed.

Lemma shr52 (m : positive) :
  iter_pos shr_1 52 {| shr_m := Zpos (m * P52); shr_r := false; shr_s := false |}
  = {| shr_m := Zpos m; shr_r := false; shr_s := false |}.
Proof.
  rewrite Pos.mul_comm. unfold P52. reflexivity.
Qed.

Lemma canonical_cases (m : positive) (e : Z) :
  bounded prec emax m e = true ->
  e <= 971 /\ ((e = -1074 /\ Zpos (digits2_pos m) <= 53) \/ (-1074 < e /\ Zpos (digits2_pos m) = 53)).
Proof.
  unfold bounded, canonical_mantissa, fexp, SpecFloat.emin, prec, emax.
  intros H. apply andb_prop in H. destruct H as [H1 H2].
  apply Z.eqb_eq in H1. apply Z.leb_le in H2. lia.
Qed.

Lemma mul_pow2_normal (s : bool) (m : positive) (e k : Z) :
  Zpos (digits2_pos m) = 53 -> -1074 <= e - k -> e <= 971 -> 0 <= k ->
  binary_round_aux prec emax s (Zpos (m * P52)) (e + (- 52 - k)) loc_Exact
  = S754_finite s m (e - k).
Proof.
  intros Hd He He' Hk.
  unfold binary_round_aux, shr_fexp.
  cbn [Zdigits2]. rewrite digits_mul_P52.
  replace (fexp prec emax (Zpos (digits2_pos m) + 52 + (e + (-52 - k))) - (e + (-52 - k)))
    with 52 by (unfold fexp, SpecFloat.emin, prec, emax; lia).
  cbn [shr shr_record_of_loc]. rewrite shr52.
  cbn [shr_m loc_of_shr_record round_nearest_even Zdigits2].
  replace (fexp prec emax (Zpos (digits2_pos m) + (e + (-52 - k) + 52)) - (e + (-52 - k) + 52))
    with 0 by (unfold fexp, SpecFloat.emin, prec, emax; lia).
  cbn [shr shr_m shr_record_of_loc].
  replace (e + (-52 - k) + 52) with (e - k) by lia.
  replace (e - k <=? emax - prec) with true; [reflexivity|].
  symmetry. apply Z.leb_le. unfold emax, prec. lia.
Qed.

Lemma bra_split (s : bool) (mx ex : Z) (lx : location) :
  binary_round_aux prec emax s mx ex lx
  = let '(mrs, e1) := shr_fexp prec emax mx ex lx in
    finish s (round_nearest_even (shr_m mrs) (loc_of_shr_record mrs)) e1.
Proof. reflexivity. Qed.

Lemma finish_canonical (s : bool) (m1 : positive) (e1 : Z) :
  fexp prec emax (Zpos (digits2_pos m1) + e1) = e1 -> e1 <= 971 ->
  finish s (Zpos m1) e1 = S754_finite s m1 e1.
Proof.
  intros Hc He. unfold finish, shr_fexp. cbn [Zdigits2].
  rewrite Hc, Z.sub_diag. cbn [shr shr_record_of_loc shr_m].
  replace (e1 <=? emax - prec) with true; [reflexivity|].
  symmetry. apply Z.leb_le. unfold emax, prec. lia.
Qed.

Lemma digits_succ_le (p : positive) :
  Zpos (digits2_pos (Pos.succ p)) <= Zpos (digits2_pos p) + 1.
Proof. induction p; cbn [Pos.succ digits2_pos]; lia. Qed.

Lemma finish_subnormal (s : bool) (m1 : positive) :
  Zpos (digits2_pos m1) <= 53 ->
  finish s (Zpos m1) (-1074) = S754_finite s m1 (-1074).
Proof.
  intros H. apply finish_canonical; [|lia].
  unfold fexp, SpecFloat.emin, prec, emax. lia.
Qed.

Lemma shr53 (m : positive) :
  iter_pos shr_1 53 {| shr_m := Zpos (m * P52); shr_r := false; shr_s := false |}
  = shr_1 {| shr_m := Zpos m; shr_r := false; shr_s := false |}.
Proof. rewrite Pos.mul_comm. unfold P52. reflexivity. Qed.

Lemma shr54 (m : positive) :
  iter_pos shr_1 54 {| shr_m := Zpos (m * P52); shr_r := false; shr_s := false |}
  = shr_1 (shr_1 {| shr_m := Zpos m; shr_r := false; shr_s := false |}).
Proof. rewrite Pos.mul_comm. unfold P52. reflexivity. Qed.

Lemma half_sub (s : bool) (m : positive) :
  Zpos (digits2_pos m) <= 53 ->
  binary_round_aux prec emax s (Zpos (m * P52)) (-1127) loc_Exact = rne_half s m.
Proof.
  intros Hd. rewrite bra_split. unfold shr_fexp.
  cbn [Zdigits2]. rewrite digits_mul_P52.
  replace (fexp prec emax (Zpos (digits2_pos m) + 52 + -1127) - -1127)
    with 53 by (unfold fexp, SpecFloat.emin, prec, emax; lia).
  cbn [shr shr_record_of_loc]. rewrite shr53.
  change (-1127 + 53) with (-1074).
  destruct m as [p|p|]; cbn [shr_1 shr_m loc_of_shr_record round_nearest_even orb rne_half].
  - cbn [digits2_pos] in Hd.
    destruct (Z.even (Zpos p)).
    + apply finish_subnormal. lia.
    + change (Zpos p + 1) with (Zpos (p + 1)). rewrite Pos.add_1_r.
      apply finish_subnormal. pose proof (digits_succ_le p). lia.
  - cbn [digits2_pos] in Hd. apply finish_subnormal. lia.
  - reflexivity.
Qed.

Lemma quarter_sub (s : bool) (m : positive) :
  Zpos (digits2_pos m) <= 53 ->
  binary_round_aux prec emax s (Zpos (m * P52)) (-1128) loc_Exact = rne_quarter s m.
Proof.
  intros Hd. rewrite bra_split. unfold shr_fexp.
  cbn [Zdigits2]. rewrite digits_mul_P52.
  replace (fexp prec emax (Zpos (digits2_pos m) + 52 + -1128) - -1128)
    with 54 by (unfold fexp, SpecFloat.emin, prec, emax; lia).
  cbn [shr shr_record_of_loc]. rewrite shr54.
  change (-1128 + 54) with (-1074).
  destruct m as [[p|p|]|[p|p|]|];
    cbn [shr_1 shr_m loc_of_shr_record round_nearest_even orb rne_quarter];
    cbn [digits2_pos] in Hd; try reflexivity.
  - change (Zpos p + 1) with (Zpos (p + 1)). rewrite Pos.add_1_r.
    apply finish_subnormal. pose proof (digits_succ_le p). lia.
  - apply finish_subnormal. lia.
  - destruct (Z.even (Zpos p)).
    + apply finish_subnormal. lia.
    + change (Zpos p + 1) with (Zpos (p + 1)). rewrite Pos.add_1_r.
      apply finish_subnormal. pose proof (digits_succ_le p). lia.
  - apply finish_subnormal. lia.
Qed.

Lemma mul_half_finite (s : bool) (m : positive) (e : Z) :
  SFmul prec emax (S754_finite s m e) half_sf
  = binary_round_aux prec emax s (Zpos (m * P52)) (e + -53) loc_Exact.
Proof. unfold SFmul, half_sf. now rewrite xorb_false_r. Qed.

Lemma mul_quarter_finite (s : bool) (m : positive) (e : Z) :
  SFmul prec emax (S754_finite s m e) quarter_sf
  = binary_round_aux prec emax s (Zpos (m * P52)) (e + -54) loc_Exact.
Proof. unfold SFmul, quarter_sf. now rewrite xorb_false_r. Qed.

Lemma mul_half_subnormal (s : bool) (m : positive) :
  Zpos (digits2_pos m) <= 53 ->
  SFmul prec emax (S754_finite s m (-1074)) half_sf = rne_half s m.
Proof. intros H. rewrite mul_half_finite. now apply half_sub. Qed.

Lemma half_of_rne_half (s : bool) (m : positive) :
  Zpos (digits2_pos m) <= 53 ->
  SFmul prec emax (rne_half s m) half_sf = rne_quarter s m.
Proof.
  intros Hd.
  destruct m as [[p|p|]|[p|p|]|]; cbn [rne_half rne_quarter Z.even Pos.succ];
    cbn [digits2_pos] in Hd;
    try (now destruct s);
    rewrite mul_half_subnormal; try reflexivity; cbn [digits2_pos]; try lia.
  pose proof (digits_succ_le p). lia.
Qed.

Lemma sf_half_half (x : spec_float) :
  valid_binary x = true ->
  SFmul prec emax (SFmul prec emax x half_sf) half_sf = SFmul prec emax x quarter_sf.
Proof.
  intros Hv. destruct x as [s|s| |s m e]; try (now destruct s); [reflexivity|].
  cbn [SpecFloat.valid_binary] in Hv.
  destruct (canonical_cases m e Hv) as [He [[-> Hd]|[Hlo Hd]]].
  - rewrite mul_half_subnormal by exact Hd.
    rewrite half_of_rne_half by exact Hd.
    rewrite mul_quarter_finite. symmetry. now apply quarter_sub.
  - destruct (Z.eq_dec e (-1073)) as [->|Hne].
    + rewrite mul_half_finite.
      change (-1073 + -53) with (-1073 + (-52 - 1)).
      rewrite mul_pow2_normal by lia.
      change (-1073 - 1) with (-1074).
      rewrite mul_half_subnormal by lia.
      rewrite mul_quarter_finite. symmetry. apply half_sub. lia.
    + rewrite mul_half_finite.
      change (-53) with (-52 - 1). rewrite mul_pow2_normal by lia.
      rewrite mul_half_finite.
      change (-53) with (-52 - 1). rewrite mul_pow2_normal by lia.
      rewrite mul_quarter_finite.
      change (-54) with (-52 - 2). rewrite mul_pow2_normal by lia.
      f_equal. lia.
Qed.

Theorem mul_half_half (q : float) : (q * 0.5 * 0.5 = q * 0.25)%float.
Proof.
  apply Prim2SF_inj. rewrite !mul_spec. unfold SF64mul.
  change (Prim2SF 0.5) with half_sf. change (Prim2SF 0.25) with quarter_sf.
  apply sf_half_half, Prim2SF_valid.
Qed.

(* ---------- digits ---------- *)

Lemma digits_log2 (p : positive) : Zpos (digits2_pos p) = Z.log2 (Zpos p) + 1.
Proof.
  assert (E : forall q, digits2_pos q = Pos.size q) by (induction q; simpl; congruence).
  destruct p as [p|p|]; cbn [digits2_pos Z.log2]; rewrite ?E; lia.
Qed.

Lemma Zdigits2_log2 (z : Z) : 0 < z -> Zdigits2 z = Z.log2 z + 1.
Proof. destruct z as [|p|p]; try lia. intros _. apply digits_log2. Qed.

Lemma Zdigits2_nonneg (z : Z) : 0 <= Zdigits2 z.
Proof. destruct z; simpl; lia. Qed.

Lemma Zdigits2_le (a b : Z) : 0 < a -> a <= b -> Zdigits2 a <= Zdigits2 b.
Proof.
  intros Ha Hab. rewrite !Zdigits2_log2 by lia.
  pose proof (Z.log2_le_mono a b Hab). lia.
Qed.

Lemma Zdigits2_lower (z k : Z) : 0 < z -> 2 ^ k <= z -> k + 1 <= Zdigits2 z.
Proof.
  intros Hz H. rewrite Zdigits2_log2 by lia.
  destruct (Z.le_gt_cases 0 k) as [Hk|Hk].
  - apply Z.log2_le_pow2 in H; lia.
  - pose proof (Z.log2_nonneg z). lia.
Qed.

Lemma Zdigits2_upper (z k : Z) : 0 < z -> z < 2 ^ k -> Zdigits2 z <= k.
Proof.
  intros Hz H. rewrite Zdigits2_log2 by lia.
  assert (0 <= k).
  { destruct (Z.le_gt_cases 0 k); [assumption|].
    rewrite Z.pow_neg_r in H by lia. lia. }
  apply Z.log2_lt_pow2 in H; lia.
Qed.

Lemma Zdigits2_bounds (z : Z) : 0 < z -> 2 ^ (Zdigits2 z - 1) <= z < 2 ^ Zdigits2 z.
Proof.
  intros Hz. rewrite Zdigits2_log2 by lia.
  replace (Z.log2 z + 1 - 1) with (Z.log2 z) by lia.
  replace (Z.log2 z + 1) with (Z.succ (Z.log2 z)) by lia.
  apply Z.log2_spec. lia.
Qed.

(** Dividing by a power of two removes that many digits. *)
Lemma Zdigits2_div_pow2 (z n : Z) :
  0 < z -> 0 <= n -> 0 < z / 2 ^ n -> Zdigits2 (z / 2 ^ n) = Zdigits2 z - n.
Proof.
  intros Hz Hn Hq.
  rewrite <- Z.shiftr_div_pow2 in * by lia.
  rewrite !Zdigits2_log2 by lia.
  rewrite Z.log2_shiftr by lia.
  assert (Z.log2 (Z.shiftr z n) = Z.log2 z - n \/ Z.log2 z - n < 0) by
    (rewrite Z.log2_shiftr by lia; lia).
  destruct (Z.le_gt_cases n (Z.log2 z)); [lia|].
  exfalso. rewrite Z.shiftr_div_pow2 in Hq by lia.
  assert (z < 2 ^ n).
  { apply Z.log2_lt_pow2; lia. }
  rewrite Z.div_small in Hq; lia.
Qed.

(* ---------- shifting ---------- *)

Lemma shr_m_record_of_loc (m : Z) (l : location) : shr_m (shr_record_of_loc m l) = m.
Proof. destruct l as [|[]]; reflexivity. Qed.

Lemma shr_1_div2 (mrs : shr_record) :
  0 <= shr_m mrs -> shr_m (shr_1 mrs) = shr_m mrs / 2.
Proof.
  destruct mrs as [m r s]. cbn [shr_m]. intros Hm.
  destruct m as [|[p|p|]|p]; cbn [shr_1 shr_m]; try lia.
  - reflexivity.
  - rewrite Pos2Z.inj_xI. apply Z.div_unique with 1; lia.
  - rewrite Pos2Z.inj_xO. apply Z.div_unique with 0; lia.
  - reflexivity.
Qed.

Lemma iter_shr_div (n : positive) (mrs : shr_record) :
  0 <= shr_m mrs -> shr_m (iter_pos shr_1 n mrs) = shr_m mrs / 2 ^ Zpos n.
Proof.
  revert mrs. induction n as [n IH|n IH|]; intros mrs Hm; cbn [iter_pos].
  - assert (H1 : 0 <= shr_m (shr_1 mrs)).
    { rewrite shr_1_div2 by lia. apply Z.div_pos; lia. }
    assert (H2 : 0 <= shr_m (iter_pos shr_1 n (shr_1 mrs))).
    { rewrite IH by lia. apply Z.div_pos; lia. }
    rewrite IH, IH, shr_1_div2 by lia.
    rewrite !Z.div_div by lia. f_equal.
    replace (Z.pos n~1) with (1 + Z.pos n + Z.pos n) by lia.
    rewrite !Z.pow_add_r by lia. lia.
  - assert (H2 : 0 <= shr_m (iter_pos shr_1 n mrs)).
    { rewrite IH by lia. apply Z.div_pos; lia. }
    rewrite IH, IH by lia.
    rewrite !Z.div_div by lia. f_equal.
    replace (Z.pos n~0) with (Z.pos n + Z.pos n) by lia.
    rewrite Z.pow_add_r by lia. reflexivity.
  - now rewrite shr_1_div2.
Qed.

(* ---------- the rounding step ---------- *)

Lemma fexp_mono (a b : Z) : a <= b -> fexp prec emax a <= fexp prec emax b.
Proof. unfold fexp, SpecFloat.emin, prec, emax. lia. Qed.

Lemma fexp_lower (a : Z) : -1074 <= fexp prec emax a /\ a - 53 <= fexp prec emax a.
Proof. unfold fexp, SpecFloat.emin, prec, emax. lia. Qed.

Lemma fexp_cases (a : Z) : fexp prec emax a = -1074 \/ fexp prec emax a = a - 53.
Proof. unfold fexp, SpecFloat.emin, prec, emax. lia. Qed.

(** The first shift of the rounding: the mantissa loses the digits below
    the target exponent. *)
Lemma shr_fexp_spec (m e : Z) (l : location) :
  0 < m -> e <= fexp prec emax (Zdigits2 m + e) ->
  exists mrs,
    shr_fexp prec emax m e l = (mrs, fexp prec emax (Zdigits2 m + e))
    /\ 0 <= shr_m mrs <= m
    /\ (0 < shr_m mrs ->
        Zdigits2 (shr_m mrs) + fexp prec emax (Zdigits2 m + e) = Zdigits2 m + e)
    /\ (shr_m mrs = 0 -> fexp prec emax (Zdigits2 m + e) = -1074).
Proof.
  intros Hm He. unfold shr_fexp, shr.
  set (t := fexp prec emax (Zdigits2 m + e)) in *.
  destruct (t - e) as [|p|p] eqn:En; [| |lia].
  - exists (shr_record_of_loc m l). rewrite shr_m_record_of_loc.
    replace t with e by lia.
    repeat split; try lia; intros; f_equal; lia.
  - exists (iter_pos shr_1 p (shr_record_of_loc m l)).
    rewrite iter_shr_div, shr_m_record_of_loc by (rewrite shr_m_record_of_loc; lia).
    assert (Hp : 0 < 2 ^ Z.pos p) by (apply Z.pow_pos_nonneg; lia).
    split; [f_equal; lia|]. split; [|split].
    + split; [apply Z.div_pos; lia|].
      apply Z.div_le_upper_bound; [lia|]. nia.
    + intros Hq. rewrite Zdigits2_div_pow2 by lia. lia.
    + intros Hq.
      assert (m < 2 ^ Z.pos p).
      { destruct (Z.lt_ge_cases m (2 ^ Z.pos p)) as [|Hge]; [assumption|].
        assert (1 <= m / 2 ^ Z.pos p) by (apply Z.div_le_lower_bound; lia). lia. }
      pose proof (Zdigits2_upper m (Z.pos p) Hm H).
      destruct (fexp_cases (Zdigits2 m + e)); subst t; lia.
Qed.

Lemma round_nearest_even_cases (m : Z) (l : location) :
  round_nearest_even m l = m \/ round_nearest_even m l = m + 1.
Proof.
  destruct l as [|[]]; cbn [round_nearest_even]; auto.
  destruct (Z.even m); auto.
Qed.

Lemma Zdigits2_succ (m : Z) : 0 < m -> Zdigits2 (m + 1) <= Zdigits2 m + 1.
Proof.
  intros Hm. apply Zdigits2_upper; [lia|].
  pose proof (Zdigits2_bounds m Hm) as [_ Hu].
  pose proof (Zdigits2_nonneg m).
  rewrite Z.pow_add_r by lia. change (2 ^ 1) with 2. lia.
Qed.

(** What the second half of the rounding returns. *)
Lemma finish_cases (s : bool) (m1 e1 : Z) :
  0 <= m1 -> (0 < m1 -> e1 <= fexp prec emax (Zdigits2 m1 + e1)) ->
  valid_binary (finish s m1 e1) = true
  /\ (finish s m1 e1 = S754_zero s
      \/ (exists m e, finish s m1 e1 = S754_finite s m e)
      \/ (finish s m1 e1 = S754_infinity s
          /\ 971 < fexp prec emax (Zdigits2 m1 + e1))).
Proof.
  intros Hm He. destruct (Z.eq_dec m1 0) as [->|Hne].
  - assert (E : finish s 0 e1 = S754_zero s).
    { unfold finish, shr_fexp, shr. cbn [Zdigits2 shr_record_of_loc].
      destruct (fexp prec emax (0 + e1) - e1) as [|p|p]; try reflexivity.
      rewrite iter_shr_div by (cbn; lia). cbn [shr_m].
      now rewrite Z.div_0_l by (apply Z.pow_nonzero; lia). }
    rewrite E. split; [reflexivity | now left].
  - destruct (shr_fexp_spec m1 e1 loc_Exact) as (mrs & E & [Hlo Hhi] & Hd & Hz);
      [lia | apply He; lia |].
    unfold finish. rewrite E.
    destruct (shr_m mrs) as [|m|m] eqn:Em; [| |lia].
    + split; [reflexivity | now left].
    + destruct (Z.leb_spec (fexp prec emax (Zdigits2 m1 + e1)) (emax - prec)) as [Hle|Hgt].
      * split; [|right; left; eauto].
        cbn [SpecFloat.valid_binary]. unfold bounded, canonical_mantissa.
        apply andb_true_intro. split; [|now apply Z.leb_le].
        apply Z.eqb_eq. specialize (Hd ltac:(lia)). cbn [Zdigits2] in Hd.
        now rewrite Hd.
      * split; [reflexivity|]. right; right. split; [reflexivity|].
        change (emax - prec) with 971 in Hgt. lia.
Qed.

(** What the rounding returns for a mantissa that is long enough. *)
Lemma bra_cases (s : bool) (mx ex : Z) (lx : location) :
  0 < mx -> ex <= fexp prec emax (Zdigits2 mx + ex) ->
  valid_binary (binary_round_aux prec emax s mx ex lx) = true
  /\ (binary_round_aux prec emax s mx ex lx = S754_zero s
      \/ (exists m e, binary_round_aux prec emax s mx ex lx = S754_finite s m e)
      \/ (binary_round_aux prec emax s mx ex lx = S754_infinity s
          /\ 971 < fexp prec emax (Zdigits2 mx + ex + 1))).
Proof.
  intros Hm He. rewrite bra_split.
  destruct (shr_fexp_spec mx ex lx Hm He) as (mrs & E & [Hlo Hhi] & Hd & Hz).
  rewrite E.
  set (e1 := fexp prec emax (Zdigits2 mx + ex)) in *.
  set (m1 := round_nearest_even (shr_m mrs) (loc_of_shr_record mrs)).
  assert (Hm1 : m1 = shr_m mrs \/ m1 = shr_m mrs + 1) by apply round_nearest_even_cases.
  assert (Hbound : 0 < m1 ->
                   e1 <= fexp prec emax (Zdigits2 m1 + e1)
                   /\ fexp prec emax (Zdigits2 m1 + e1)
                      <= fexp prec emax (Zdigits2 mx + ex + 1)).
  { intros Hpos. destruct (Z.eq_dec (shr_m mrs) 0) as [E0|N0].
    - assert (m1 = 1) by lia. specialize (Hz E0).
      replace m1 with 1 by lia. cbn [Zdigits2 digits2_pos].
      rewrite Hz. pose proof (fexp_lower (Zdigits2 mx + ex + 1)).
      unfold fexp, SpecFloat.emin, prec, emax in *. lia.
    - specialize (Hd ltac:(lia)).
      assert (Zdigits2 (shr_m mrs) <= Zdigits2 m1) by (apply Zdigits2_le; lia).
      assert (Zdigits2 m1 <= Zdigits2 (shr_m mrs) + 1).
      { destruct Hm1 as [->| ->]; [lia | apply Zdigits2_succ; lia]. }
      split.
      + replace e1 with (fexp prec emax (Zdigits2 (shr_m mrs) + e1)) at 1
          by (rewrite Hd; reflexivity).
        apply fexp_mono. lia.
      + apply fexp_mono. lia. }
  destruct (finish_cases s m1 e1) as [Hv Hc]; [lia | intros; now apply Hbound |].
  split; [exact Hv|].
  destruct Hc as [Hc|[Hc|[Hc Hinf]]]; auto.
  right; right. split; [exact Hc|].
  destruct (Z.eq_dec m1 0) as [E0|N0].
  - rewrite E0 in Hinf. cbn [Zdigits2] in Hinf.
    pose proof (fexp_mono (0 + e1) (Zdigits2 mx + ex + 1)).
    pose proof (fexp_lower (Zdigits2 mx + ex)).
    destruct (fexp_cases (0 + e1)); destruct (fexp_cases (Zdigits2 mx + ex + 1));
      destruct (fexp_cases (Zdigits2 mx + ex)); subst e1; lia.
  - destruct (Hbound ltac:(lia)). lia.
Qed.

(* ---------- signs ---------- *)

Lemma shr_fexp_nonneg (m e : Z) (l : location) :
  0 <= m -> 0 <= shr_m (fst (shr_fexp prec emax m e l)).
Proof.
  intros Hm. unfold shr_fexp, shr.
  destruct (fexp prec emax (Zdigits2 m + e) - e) as [|p|p]; cbn [fst];
    rewrite ?iter_shr_div; rewrite ?shr_m_record_of_loc; try lia.
  apply Z.div_pos; [lia | apply Z.pow_pos_nonneg; lia].
Qed.

Lemma bra_nonneg (mx ex : Z) (lx : location) :
  0 <= mx -> sf_nonneg (binary_round_aux prec emax false mx ex lx).
Proof.
  intros Hm. rewrite bra_split.
  pose proof (shr_fexp_nonneg mx ex lx Hm) as H1.
  destruct (shr_fexp prec emax mx ex lx) as [mrs e1]. cbn [fst] in H1.
  set (m1 := round_nearest_even (shr_m mrs) (loc_of_shr_record mrs)).
  assert (Hm1 : 0 <= m1).
  { subst m1. destruct (round_nearest_even_cases (shr_m mrs) (loc_of_shr_record mrs)); lia. }
  unfold finish.
  pose proof (shr_fexp_nonneg m1 e1 loc_Exact Hm1) as H2.
  destruct (shr_fexp prec emax m1 e1 loc_Exact) as [mrs2 e2]. cbn [fst] in H2.
  unfold sf_nonneg.
  destruct (shr_m mrs2) as [|m|m]; [left; eauto | | lia].
  destruct (e2 <=? emax - prec); [right; right; eauto | right; left; reflexivity].
Qed.

Lemma ge0_spec (x : float) : ge0 x = true <-> sf_nonneg (Prim2SF x).
Proof.
  unfold ge0. rewrite leb_spec. change (Prim2SF 0) with (S754_zero false).
  unfold sf_nonneg. destruct (Prim2SF x) as [s|[|]| |[|] m e]; cbn; split; intros H;
    try discriminate; try reflexivity; eauto;
    destruct H as [[s' H]|[H|[m' [e' H]]]]; discriminate.
Qed.

(** A product with a positive finite factor keeps the sign. *)
Lemma mul_nonneg (x y : float) (m : positive) (e : Z) :
  ge0 x = true -> Prim2SF y = S754_finite false m e -> ge0 (x * y) = true.
Proof.
  rewrite !ge0_spec, mul_spec. unfold SF64mul. intros Hx Hy. rewrite Hy.
  destruct Hx as [[s ->]|[->|[mx [ex ->]]]]; cbn [SFmul xorb].
  - left. eauto.
  - right; left. reflexivity.
  - apply bra_nonneg. lia.
Qed.

Lemma gt0_finite (q : float) :
  gt0 q = true -> isfinite q = true -> exists m e, Prim2SF q = S754_finite false m e.
Proof.
  unfold gt0, isfinite. rewrite ltb_spec. change (Prim2SF 0) with (S754_zero false).
  destruct (Prim2SF q) as [s|s| |[|] m e]; cbn; try discriminate; eauto.
Qed.

(* ---------- division by one hundred ---------- *)

(** The decimal [n / 100] read back as a double. *)
Lemma div100_cases (s : bool) (n : positive) :
  valid_binary (SFdiv prec emax (S754_finite s n 0) (S754_finite false 100 0)) = true
  /\ (SFdiv prec emax (S754_finite s n 0) (S754_finite false 100 0) = S754_zero s
      \/ (exists m e,
            SFdiv prec emax (S754_finite s n 0) (S754_finite false 100 0)
            = S754_finite s m e)
      \/ (SFdiv prec emax (S754_finite s n 0) (S754_finite false 100 0) = S754_infinity s
          /\ 60 < Zpos (digits2_pos n))).
Proof.
  unfold SFdiv, SFdiv_core_binary. rewrite xorb_false_r.
  cbn [Zdigits2]. change (Zpos (digits2_pos 100)) with 7.
  set (d := Zpos (digits2_pos n)).
  set (e' := Z.min (fexp prec emax (d + 0 - (7 + 0))) (0 - 0)).
  set (s' := 0 - 0 - e').
  set (m' := match s' with
             | 0 => Z.pos n
             | Z.pos _ => Z.shiftl (Z.pos n) s'
             | Z.neg _ => 0
             end).
  assert (Hd : 1 <= d) by (subst d; lia).
  assert (He' : e' = Z.min (d - 60) 0).
  { subst e'. unfold fexp, SpecFloat.emin, prec, emax. lia. }
  assert (Hs' : s' = - e') by (subst s'; lia).
  assert (Em : m' = Zpos n * 2 ^ s').
  { subst m'. destruct s' as [|k|k]; [lia | apply Z.shiftl_mul_pow2; lia | lia]. }
  clearbody m' e' s'.
  pose proof (Zdigits2_bounds (Zpos n) ltac:(lia)) as [Hlo Hhi].
  cbn [Zdigits2] in Hlo, Hhi. fold d in Hlo, Hhi.
  assert (Hp : 0 < 2 ^ s') by (apply Z.pow_pos_nonneg; lia).
  assert (Hm59 : 2 ^ 59 <= m').
  { assert (2 ^ (d - 1) * 2 ^ s' <= m') by nia.
    rewrite <- Z.pow_add_r in H by lia.
    assert (2 ^ 59 <= 2 ^ (d - 1 + s')) by (apply Z.pow_le_mono_r; lia).
    lia. }
  destruct (Z.div_eucl m' 100) as [q r] eqn:E.
  assert (Eq : q = m' / 100) by (unfold Z.div; now rewrite E).
  assert (Hq : 2 ^ 52 <= q).
  { rewrite Eq. apply Z.div_le_lower_bound; lia. }
  assert (Hdq : 53 <= Zdigits2 q) by (apply (Zdigits2_lower q 52); lia).
  destruct (bra_cases s q e' (new_location 100 r)) as [Hv Hc].
  - lia.
  - pose proof (fexp_lower (Zdigits2 q + e')). lia.
  - split; [exact Hv|].
    destruct Hc as [Hc|[Hc|[Hc Hinf]]]; auto.
    right; right. split; [exact Hc|].
    destruct (Z.le_gt_cases d 60) as [Hle|Hgt]; [exfalso|exact Hgt].
    assert (m' < 2 ^ 60).
    { assert (m' < 2 ^ d * 2 ^ s') by nia.
      rewrite <- Z.pow_add_r in H by lia.
      replace (d + s') with 60 in H by lia. exact H. }
    assert (q < 2 ^ 54).
    { rewrite Eq. apply Z.div_lt_upper_bound; lia. }
    pose proof (Zdigits2_upper q 54 ltac:(lia) H0).
    unfold fexp, SpecFloat.emin, prec, emax in Hinf. lia.
Qed.

Lemma round_half_even_div_le (num den : Z) :
  round_half_even_div num den <= num / den + 1.
Proof.
  unfold round_half_even_div.
  destruct (2 * (num mod den) ?= den); [destruct (Z.even (num / den))| |]; lia.
Qed.

(** Rounding to two decimals keeps a non-negative number non-negative. *)
Lemma round2_ge0 (x : float) : ge0 x = true -> ge0 (round2 x) = true.
Proof.
  intros H. unfold round2.
  destruct (Prim2SF x) as [s|s| |s m [|p|p]] eqn:E; try exact H.
  assert (Hs : s = false).
  { apply ge0_spec in H. rewrite E in H.
    destruct H as [[s' H]|[H|[m' [e' H]]]]; congruence. }
  subst s.
  destruct (round_half_even_div (100 * Z.pos m) (2 ^ Z.pos p)) as [|n|n];
    try reflexivity.
  destruct (div100_cases false n) as [Hv Hc].
  apply ge0_spec. rewrite Prim2SF_SF2Prim by exact Hv.
  unfold sf_nonneg. destruct Hc as [Hc|[[m' [e' Hc]]|[Hc _]]]; rewrite Hc; eauto.
Qed.

(** Rounding to two decimals keeps a finite number finite. *)
Lemma round2_isfinite (x : float) : isfinite x = true -> isfinite (round2 x) = true.
Proof.
  intros H. unfold round2.
  pose proof (Prim2SF_valid x) as Hvx.
  destruct (Prim2SF x) as [s|s| |s m [|p|p]] eqn:E; try exact H.
  destruct (round_half_even_div (100 * Z.pos m) (2 ^ Z.pos p)) as [|n|n] eqn:En;
    try (now destruct s).
  destruct (div100_cases s n) as [Hv Hc].
  unfold isfinite. rewrite Prim2SF_SF2Prim by exact Hv.
  destruct Hc as [Hc|[[m' [e' Hc]]|[Hc Hbig]]]; rewrite Hc; try reflexivity.
  exfalso.
  cbn [SpecFloat.valid_binary] in Hvx.
  destruct (canonical_cases m (Z.neg p) Hvx) as [_ Hd].
  assert (Hm : Zpos m < 2 ^ 53).
  { pose proof (Zdigits2_bounds (Zpos m) ltac:(lia)) as [_ Hu]. cbn [Zdigits2] in Hu.
    assert (2 ^ Zpos (digits2_pos m) <= 2 ^ 53) by (apply Z.pow_le_mono_r; lia).
    lia. }
  pose proof (round_half_even_div_le (100 * Z.pos m) (2 ^ Z.pos p)) as Hle.
  rewrite En in Hle.
  assert (Hp : 2 <= 2 ^ Z.pos p).
  { change 2 with (2 ^ 1) at 1. apply Z.pow_le_mono_r; lia. }
  assert (100 * Z.pos m / 2 ^ Z.pos p <= 50 * Zpos m).
  { apply Z.div_le_upper_bound; nia. }
  assert (Hn : Zpos n < 2 ^ 59) by lia.
  pose proof (Zdigits2_upper (Zpos n) 59 ltac:(lia) Hn) as Hdn.
  cbn [Zdigits2] in Hdn. lia.
Qed.

(* ---------- integers as doubles ---------- *)

Lemma digits_iter_xO (p k : positive) :
  Zpos (digits2_pos (Pos.iter xO p k)) = Zpos (digits2_pos p) + Zpos k.
Proof.
  induction k as [|k IH] using Pos.peano_ind.
  - cbn [Pos.iter digits2_pos]. lia.
  - rewrite Pos.iter_succ. cbn [digits2_pos]. lia.
Qed.

Lemma float_of_int_ge0 (z : Z) (f : float) :
  0 <= z -> float_of_int z = Some f -> ge0 f = true.
Proof.
  intros Hz. unfold float_of_int, binary_normalize.
  destruct z as [|p|p]; [| |lia].
  - intros [= <-]. reflexivity.
  - unfold binary_round, shl_align.
    set (d := Zpos (digits2_pos p)).
    assert (Hpre : let '(mz, ez) :=
                     match fexp prec emax (d + 0) - 0 with
                     | Z.neg k => (Pos.iter xO p k, fexp prec emax (d + 0))
                     | _ => (p, 0)
                     end in
                   ez <= fexp prec emax (Zdigits2 (Zpos mz) + ez)).
    { destruct (fexp prec emax (d + 0) - 0) as [|k|k] eqn:Ek; cbn [Zdigits2].
      - fold d. lia.
      - fold d. lia.
      - rewrite digits_iter_xO. fold d.
        apply fexp_mono. lia. }
    destruct (match fexp prec emax (d + 0) - 0 with
              | Z.neg k => (Pos.iter xO p k, fexp prec emax (d + 0))
              | _ => (p, 0)
              end) as [mz ez].
    destruct (bra_cases false (Zpos mz) ez loc_Exact ltac:(lia) Hpre) as [Hv Hc].
    destruct Hc as [Hc|[[m' [e' Hc]]|[Hc _]]]; rewrite Hc in *.
    + intros [= <-]. reflexivity.
    + intros Hf.
      assert (Ef : f = SF2Prim (S754_finite false m' e')) by congruence.
      rewrite Ef. apply ge0_spec. rewrite Prim2SF_SF2Prim by exact Hv.
      unfold sf_nonneg. eauto.
    + discriminate.
Qed.

End Binary64Facts.

(* ================================================================== *)
(** ** The estimate *)

(* ---------- the factors of the estimate ---------- *)

Lemma gt0_ge0 (x : float) : gt0 x = true -> ge0 x = true.
Proof.
  unfold gt0, ge0. rewrite ltb_spec, leb_spec.
  change (Prim2SF 0) with (S754_zero false).
  destruct (Prim2SF x) as [s|[|]| |[|] m e]; cbn; congruence.
Qed.

(** Halving a finite number cannot overflow. *)
Lemma mul_half_isfinite (x : float) :
  isfinite x = true -> isfinite (x * 0.5) = true.
Proof.
  unfold isfinite. rewrite mul_spec. unfold SF64mul.
  change (Prim2SF 0.5) with half_sf.
  pose proof (Prim2SF_valid x) as Hv.
  destruct (Prim2SF x) as [s|s| |s m e]; try discriminate; [reflexivity|].
  intros _. rewrite mul_half_finite.
  cbn [SpecFloat.valid_binary] in Hv.
  destruct (canonical_cases m e Hv) as [He Hd].
  destruct (bra_cases s (Zpos (m * P52)) (e + -53) loc_Exact) as [_ Hc].
  - lia.
  - cbn [Zdigits2]. rewrite digits_mul_P52.
    pose proof (fexp_lower (Z.pos (digits2_pos m) + 52 + (e + -53))). lia.
  - destruct Hc as [Hc|[[m' [e' Hc]]|[Hc Hinf]]]; rewrite Hc; try reflexivity.
    exfalso. cbn [Zdigits2] in Hinf. rewrite digits_mul_P52 in Hinf.
    unfold fexp, SpecFloat.emin, prec, emax in Hinf. lia.
Qed.

(** Every coefficient the lookup can return is positive and finite. *)
Lemma coefficient_positive (item_name category : string) :
  gt0 (coefficient_for item_name category) && isfinite (coefficient_for item_name category)
  = true.
Proof.
  unfold coefficient_for, key_matches. simpl.
  repeat match goal with
         | |- context [if ?c || ?d then _ else _] => destruct (c || d)
         end; reflexivity.
Qed.

Lemma mul_positive_ge0 (x y : float) :
  ge0 x = true -> gt0 y && isfinite y = true -> ge0 (x * y) = true.
Proof.
  intros Hx Hy. apply andb_prop in Hy. destruct Hy as [Hy1 Hy2].
  destruct (gt0_finite y Hy1 Hy2) as (m & e & E).
  exact (mul_nonneg x y m e Hx E).
Qed.

(** The fallback estimate for a positive finite quantity. *)
Lemma mock_co2_bounds (item_name : string) (quantity : float) :
  gt0 quantity = true -> isfinite quantity = true ->
  ge0 (co2_saved (get_mock_ai_response item_name quantity)) = true
  /\ isfinite (co2_saved (get_mock_ai_response item_name quantity)) = true.
Proof.
  intros Hq Hf. rewrite mock_co2_saved. split.
  - apply round2_ge0.
    do 2 (apply mul_positive_ge0; [|reflexivity]).
    now apply gt0_ge0.
  - apply round2_isfinite. now do 2 apply mul_half_isfinite.
Qed.

Lemma mock_category_nonempty (item_name : string) (quantity : float) :
  exists c, category (get_mock_ai_response item_name quantity) = JStr c
            /\ nonempty c = true.
Proof.
  pose proof (mock_category item_name quantity) as H. simpl in H.
  repeat (destruct H as [<-|H]; [eexists; split; reflexivity|]).
  contradiction.
Qed.

(** The remote estimate for a benign reply. *)
Lemma benign_estimate (ai_data : json) (item_name : string) (quantity : float) :
  gt0 quantity = true -> isfinite quantity = true ->
  benign_reply ai_data = true ->
  exists r c,
    estimate_from_reply ai_data item_name quantity = Returned r
    /\ ge0 (co2_saved r) = true
    /\ category r = JStr c /\ nonempty c = true.
Proof.
  intros Hq Hf Hb. destruct ai_data as [| | | | | |fields]; try discriminate Hb.
  cbn [benign_reply] in Hb.
  apply andb_prop in Hb. destruct Hb as [Hb Hw].
  apply andb_prop in Hb. destruct Hb as [Hwf Hc].
  rewrite (estimate_well_formed fields item_name quantity Hwf).
  assert (Hcat : exists c, field_or fields "category" (JStr "other") = JStr c
                           /\ nonempty c = true).
  { unfold well_formed in Hwf. apply andb_prop in Hwf. destruct Hwf as [Hwf _].
    unfold field_or.
    destruct (assoc "category" fields) as [[| | | |c| |]|]; try discriminate Hwf;
      eexists; split; try reflexivity; assumption. }
  destruct Hcat as (c & Ec & Hne).
  eexists. exists c. split; [reflexivity|]. cbn [co2_saved category].
  split; [|split; assumption].
  apply round2_ge0. apply mul_positive_ge0; [|apply coefficient_positive].
  apply mul_positive_ge0; [exact Hw|]. now rewrite Hq, Hf.
Qed.

(** C9.  On the fallback path co2_saved does not depend on the category:
    it is round(quantity * 0.5 * 0.5, 2), which is round(quantity * 0.25, 2),
    because the coefficient of "food" is the 0.5 of the default and
    "recyclable", "hazardous" and "other" are not keys of the table. *)
Theorem fallback_co2_ignores_category (item_name : string) (quantity : float) :
  co2_saved (get_mock_ai_response item_name quantity)
  = round2 (quantity * 0.5 * 0.5)%float
  /\ round2 (quantity * 0.5 * 0.5)%float = round2 (quantity * 0.25)%float
  /\ impact_getitem "food" = Returned 0.5%float
  /\ impact_getitem "default" = Returned 0.5%float
  /\ assoc "recyclable" CO2_IMPACT_MAP = None
  /\ assoc "hazardous" CO2_IMPACT_MAP = None
  /\ assoc "other" CO2_IMPACT_MAP = None.
Proof.
  split; [apply mock_co2_saved|].
  split; [now rewrite mul_half_half|].
  repeat split.
Qed.

(** C2 (as the code has it).  For every finite quantity q > 0 and every
    item name: the fallback record has a finite co2_saved >= 0 and one of
    the categories food, recyclable, hazardous, other; and when every reply
    that decodes is an object whose category, if present, is a non-empty
    string and whose estimated_weight_kg, if present, is a number >= 0, the
    record the entry point returns has co2_saved >= 0 and a non-empty
    category, on the remote-success path as on the fallback path. *)
Theorem co2_saved_nonnegative
    (json_loads : string -> option json)
    (environ : list (string * string))
    (post : request -> http_reply)
    (item_name : string) (quantity : float) (user_location : string)
    (Hq : gt0 quantity = true) (Hfin : isfinite quantity = true)
    (Hreply : forall req ai_data,
        remote_reply json_loads (post req) = Returned ai_data ->
        benign_reply ai_data = true) :
  (ge0 (co2_saved (get_mock_ai_response item_name quantity)) = true
   /\ isfinite (co2_saved (get_mock_ai_response item_name quantity)) = true
   /\ In (category (get_mock_ai_response item_name quantity))
         [JStr "food"; JStr "recyclable"; JStr "hazardous"; JStr "other"])
  /\ exists r c,
       fst (get_ai_waste_analysis json_loads environ post
              item_name quantity user_location) = Returned r
       /\ ge0 (co2_saved r) = true
       /\ category r = JStr c /\ nonempty c = true.
Proof.
  destruct (mock_co2_bounds item_name quantity Hq Hfin) as [Hge Hfi].
  split; [split; [exact Hge | split; [exact Hfi | apply mock_category]]|].
  assert (Hmock : exists r c,
             Returned (get_mock_ai_response item_name quantity) = Returned r
             /\ ge0 (co2_saved r) = true /\ category r = JStr c /\ nonempty c = true).
  { destruct (mock_category_nonempty item_name quantity) as (c & Ec & Hc).
    eexists. exists c. split; [reflexivity|]. auto. }
  unfold get_ai_waste_analysis.
  destruct (no_credential (assoc "BYTEZ_API_KEY" environ)); cbn [fst]; [exact Hmock|].
  match goal with
  | |- context [remote_reply json_loads (post ?req)] =>
      destruct (remote_reply json_loads (post req)) as [ai_data|e] eqn:E
  end; cbn [fst]; [|exact Hmock].
  apply benign_estimate; try assumption.
  exact (Hreply _ _ E).
Qed.

Lemma co2_saved_nonnegative_witness :
  gt0 2%float = true /\ isfinite 2%float = true
  /\ (forall req ai_data,
        remote_reply json_loads_fixture (post_fixture "{}" req) = Returned ai_data ->
        benign_reply ai_data = true)
  /\ exists r c,
       fst (get_ai_waste_analysis json_loads_fixture environ_fixture (post_fixture "{}")
              "can" 2%float default_location) = Returned r
       /\ ge0 (co2_saved r) = true
       /\ category r = JStr c /\ nonempty c = true.
Proof.
  assert (H : forall req ai_data,
             remote_reply json_loads_fixture (post_fixture "{}" req) = Returned ai_data ->
             benign_reply ai_data = true).
  { intros req ai_data E. change (Returned (JObj []) = Returned ai_data) in E.
    injection E as <-. reflexivity. }
  split; [reflexivity|]. split; [reflexivity|]. split; [exact H|].
  exact (proj2 (co2_saved_nonnegative json_loads_fixture environ_fixture
                  (post_fixture "{}") "can" 2%float default_location
                  eq_refl eq_refl H)).
Defined.

(** C2, refuted as stated: a reply with an empty category and a negative
    weight gives, for quantity 1, an empty category and co2_saved -0.5; and
    on the fallback path an infinite quantity gives an infinite
    co2_saved. *)
Lemma negative_co2_empty_category :
  gt0 1%float = true
  /\ get_ai_waste_analysis json_loads_fixture environ_fixture
       (post_fixture text_empty_category) "can" 1%float default_location
     = (Returned {| category := JStr EmptyString;
                    disposal_instruction := JStr "Please recycle responsibly.";
                    tip := JStr "Reduce, reuse, recycle.";
                    co2_saved := (-0.5)%float |},
        [build_request "secret" "can" 1%float default_location])
  /\ ge0 (-0.5)%float = false
  /\ nonempty EmptyString = false
  /\ gt0 infinity = true
  /\ isfinite (co2_saved (get_mock_ai_response "can" infinity)) = false.
Proof. repeat split; vm_compute; reflexivity. Qed.

(* ================================================================== *)
(** ** More on the remote path *)

(** X1.  The entry point posts at most one request, whatever the endpoint
    answers (no retry), and none exactly when the credential is unset or
    empty; a posted request carries the credential as a bearer token and
    the call's item name, quantity and location. *)
Theorem at_most_one_request
    (json_loads : string -> option json)
    (environ : list (string * string))
    (post : request -> http_reply)
    (item_name : string) (quantity : float) (user_location : string) :
  let requests := snd (get_ai_waste_analysis json_loads environ post
                         item_name quantity user_location) in
  (List.length requests <= 1)%nat
  /\ (requests = [] <-> no_credential (assoc "BYTEZ_API_KEY" environ) = true)
  /\ forall req, In req requests ->
       exists api_key,
         assoc "BYTEZ_API_KEY" environ = Some api_key
         /\ nonempty api_key = true
         /\ authorization req = "Bearer " ++ api_key
         /\ prompt req = (item_name, quantity, user_location).
Proof.
  unfold get_ai_waste_analysis.
  destruct (assoc "BYTEZ_API_KEY" environ) as [k|] eqn:Ek; cbn [no_credential].
  - destruct (nonempty k) eqn:Hk; cbn [negb].
    + match goal with
      | |- context [remote_reply json_loads (post ?r)] =>
          destruct (remote_reply json_loads (post r))
      end; cbn [snd List.length]; (split; [lia|]); (split; [split; discriminate|]);
        intros req [<-|[]]; exists k; auto.
    + cbn [snd List.length]. split; [lia|]. split; [tauto|]. intros req [].
  - cbn [snd List.length]. split; [lia|]. split; [tauto|]. intros req [].
Qed.


(** X3.  What the code after the [try] block does with a decoded reply
    depends on the reply alone: it returns a record exactly for an
    estimable one, and otherwise raises AttributeError, TypeError or
    OverflowError.  So the entry point raises exactly when a credential is
    set, the [try] block yields a reply, and that reply is not estimable. *)
Theorem entry_point_raises
    (json_loads : string -> option json)
    (environ : list (string * string))
    (post : request -> http_reply)
    (item_name : string) (quantity : float) (user_location : string) :
  (forall ai_data,
     match estimate_from_reply ai_data item_name quantity with
     | Returned _ => estimable ai_data = true
     | Raised e =>
         estimable ai_data = false
         /\ In e [AttributeError; TypeError; OverflowError]
     end)
  /\ ((exists e, fst (get_ai_waste_analysis json_loads environ post
                        item_name quantity user_location) = Raised e)
      <-> exists api_key ai_data,
            assoc "BYTEZ_API_KEY" environ = Some api_key
            /\ nonempty api_key = true
            /\ remote_reply json_loads
                 (post (build_request api_key item_name quantity user_location))
               = Returned ai_data
            /\ estimable ai_data = false).
Proof.
  assert (Hest : forall ai_data,
             match estimate_from_reply ai_data item_name quantity with
             | Returned _ => estimable ai_data = true
             | Raised e =>
                 estimable ai_data = false
                 /\ In e [AttributeError; TypeError; OverflowError]
             end).
  { intros ai_data. unfold estimate_from_reply, estimable, get.
    destruct ai_data as [| | | | | |fields]; cbn [bind In]; auto.
    destruct (assoc "category" fields) as [[| | | |c| |]|];
      cbn [bind str_lower andb In]; auto;
      (destruct (assoc "estimated_weight_kg" fields) as [[|b|z|w| | |]|];
       cbn [bind mul_float In]; auto;
       try (destruct (float_of_int z); cbn [bind In]; auto);
       rewrite scan_without_lookup, scan_first_match; reflexivity). }
  split; [exact Hest|].
  unfold get_ai_waste_analysis.
  destruct (assoc "BYTEZ_API_KEY" environ) as [k|] eqn:Ek; cbn [no_credential].
  - destruct (nonempty k) eqn:Hk; cbn [negb fst].
    + destruct (remote_reply json_loads (post (build_request k item_name quantity user_location)))
        as [d|e0] eqn:Er; cbn [fst].
      * specialize (Hest d). split.
        -- intros [e He]. rewrite He in Hest. exists k, d. tauto.
        -- intros (k' & d' & [= <-] & _ & Hd & Hne).
           rewrite Er in Hd. injection Hd as <-.
           destruct (estimate_from_reply d item_name quantity) as [r|e];
             [congruence | eauto].
      * split; [intros [e He]; discriminate|].
        intros (k' & d' & [= <-] & _ & Hd & _). rewrite Er in Hd. discriminate.
    + split; [intros [e He]; discriminate|].
      intros (k' & d' & [= <-] & Hk' & _). congruence.
  - cbn [fst]. split; [intros [e He]; discriminate|].
    intros (k' & d' & Hk' & _). discriminate.
Qed.

Section CaseFacts.

Lemma lower_char_idempotent (c : ascii) : lower_char (lower_char c) = lower_char c.
Proof. destruct c as [[] [] [] [] [] [] [] []]; reflexivity. Qed.

Lemma lower_idempotent (s : string) : lower (lower s) = lower s.
Proof.
  induction s as [|c s IH]; simpl; [reflexivity|].
  now rewrite lower_char_idempotent, IH.
Qed.

End CaseFacts.

(** X4.  The classifier reads the item name through its lowercase form
    only: two names that differ in letter case get the same category and
    the same co2_saved. *)
Theorem classifier_ignores_case (item_name item_name' : string) (quantity : float)
    (H : lower item_name = lower item_name') :
  category (get_mock_ai_response item_name quantity)
  = category (get_mock_ai_response item_name' quantity)
  /\ co2_saved (get_mock_ai_response item_name quantity)
     = co2_saved (get_mock_ai_response item_name' quantity).
Proof.
  unfold get_mock_ai_response. rewrite H.
  repeat match goal with
         | |- context [if any_in ?ws ?s then _ else _] => destruct (any_in ws s)
         end; split; reflexivity.
Qed.

Lemma classifier_ignores_case_witness :
  lower "Plastic Bottle" = lower "plastic BOTTLE"
  /\ category (get_mock_ai_response "Plastic Bottle" 3%float)
     = category (get_mock_ai_response "plastic BOTTLE" 3%float)
  /\ co2_saved (get_mock_ai_response "Plastic Bottle" 3%float)
     = co2_saved (get_mock_ai_response "plastic BOTTLE" 3%float).
Proof.
  split; [reflexivity|].
  exact (classifier_ignores_case "Plastic Bottle" "plastic BOTTLE" 3%float eq_refl).
Defined.

(** X5.  On the remote path the letter case of the reply's category and of
    the item name does not change the estimate, while the record keeps the
    category as the reply spelled it: two calls whose categories and item
    names agree up to case, with the same weight field, give the same
    co2_saved, or raise the same exception. *)
Theorem remote_estimate_ignores_case
    (fields fields' : list (string * json)) (item_name item_name' c c' : string)
    (quantity : float)
    (Hc : assoc "category" fields = Some (JStr c))
    (Hc' : assoc "category" fields' = Some (JStr c'))
    (Hlow : lower c = lower c')
    (Hitem : lower item_name = lower item_name')
    (Hw : assoc "estimated_weight_kg" fields = assoc "estimated_weight_kg" fields') :
  match estimate_from_reply (JObj fields) item_name quantity,
        estimate_from_reply (JObj fields') item_name' quantity with
  | Returned r, Returned r' =>
      co2_saved r = co2_saved r' /\ category r = JStr c /\ category r' = JStr c'
  | Raised e, Raised e' => e = e'
  | _, _ => False
  end.
Proof.
  unfold estimate_from_reply, get. rewrite Hc, Hc', <- Hw. cbn [bind str_lower].
  assert (E : co2_rate_for item_name (lower c) = co2_rate_for item_name' (lower c')).
  { rewrite !scan_without_lookup, !scan_first_match.
    unfold coefficient_for, key_matches. now rewrite Hitem, Hlow. }
  rewrite E, !scan_without_lookup, !scan_first_match.
  destruct (assoc "estimated_weight_kg" fields) as [[|b|z|w| | |]|];
    cbn [bind mul_float co2_saved category]; auto;
    destruct (float_of_int z); cbn [bind co2_saved category]; auto.
Qed.

Lemma remote_estimate_ignores_case_witness :
  assoc "category" plastic_reply = Some (JStr "Plastic")
  /\ assoc "category" [("category", JStr "PLASTIC");
                       ("estimated_weight_kg", JFloat 0.2%float)]
     = Some (JStr "PLASTIC")
  /\ match estimate_from_reply (JObj plastic_reply) "Water Bottle" 3%float,
           estimate_from_reply
             (JObj [("category", JStr "PLASTIC");
                    ("estimated_weight_kg", JFloat 0.2%float)])
             "water bottle" 3%float with
     | Returned r, Returned r' =>
         co2_saved r = co2_saved r'
         /\ category r = JStr "Plastic" /\ category r' = JStr "PLASTIC"
     | Raised e, Raised e' => e = e'
     | _, _ => False
     end.
Proof.
  split; [reflexivity|]. split; [reflexivity|].
  exact (remote_estimate_ignores_case plastic_reply
           [("category", JStr "PLASTIC"); ("estimated_weight_kg", JFloat 0.2%float)]
           "Water Bottle" "water bottle" "Plastic" "PLASTIC" 3%float
           eq_refl eq_refl eq_refl eq_refl eq_refl).
Defined.

(** X6.  A message that opens with a code fence but has fewer than three
    lines loses everything with its first and last line: the parser is
    handed the empty text, and when it rejects it the entry point falls
    back to the classifier. *)
Theorem short_fence_is_lost
    (json_loads : string -> option json)
    (environ : list (string * string)) (status : Z)
    (item_name : string) (quantity : float) (user_location : string)
    (content : string)
    (Hfence : startswith "```" (strip content) = true)
    (Hshort : (List.length (split_lines (strip content)) <= 2)%nat)
    (Hempty : json_loads EmptyString = None) :
  unfence (strip content) = EmptyString
  /\ fst (get_ai_waste_analysis json_loads environ
            (fun _ => Response status (Some (envelope content)))
            item_name quantity user_location)
     = Returned (get_mock_ai_response item_name quantity).
Proof.
  assert (E : unfence (strip content) = EmptyString).
  { unfold unfence. rewrite Hfence. unfold slice_1_m1. revert Hshort.
    destruct (split_lines (strip content)) as [|a [|b [|c l]]];
      try reflexivity. simpl. intros Hlen. exfalso. lia. }
  split; [exact E|].
  unfold get_ai_waste_analysis.
  destruct (no_credential (assoc "BYTEZ_API_KEY" environ)); [reflexivity|].
  unfold remote_reply, envelope.
  destruct (raise_for_status status) as [[]|e]; cbn; [|reflexivity].
  now rewrite E, Hempty.
Qed.

Lemma short_fence_is_lost_witness :
  startswith "```" (strip "```{}```") = true
  /\ (List.length (split_lines (strip "```{}```")) <= 2)%nat
  /\ json_loads_fixture EmptyString = None
  /\ unfence (strip "```{}```") = EmptyString
  /\ fst (get_ai_waste_analysis json_loads_fixture environ_fixture
            (fun _ => Response 200 (Some (envelope "```{}```")))
            "can" 1%float default_location)
     = Returned (get_mock_ai_response "can" 1%float).
Proof.
  split; [reflexivity|]. split; [exact (le_S _ _ (le_n 1))|]. split; [reflexivity|].
  exact (short_fence_is_lost json_loads_fixture environ_fixture 200
           "can" 1%float default_location "```{}```"
           eq_refl (le_S _ _ (le_n 1)) eq_refl).
Defined.

(* ================================================================== *)
(** ** The dashboard helpers *)

Section DictFacts.

Context {V : Type}.

Lemma assoc_dict_set_same (k : string) (v : V) (d : list (string * V)) :
  assoc k (dict_set k v d) = Some v.
Proof.
  induction d as [|[k' v'] d IH]; simpl.
  - now rewrite String.eqb_refl.
  - destruct (String.eqb k k') eqn:E; simpl.
    + now rewrite String.eqb_refl.
    + now rewrite E.
Qed.

Lemma assoc_dict_set_other (k k' : string) (v : V) (d : list (string * V)) :
  k' <> k -> assoc k' (dict_set k v d) = assoc k' d.
Proof.
  intros Hne. induction d as [|[k0 v0] d IH]; simpl.
  - destruct (String.eqb_spec k' k); [contradiction | reflexivity].
  - destruct (String.eqb_spec k k0) as [->|Hk]; simpl.
    + destruct (String.eqb_spec k' k0); [contradiction | reflexivity].
    + destruct (String.eqb_spec k' k0); [reflexivity | exact IH].
Qed.

Lemma keys_dict_set (k k' : string) (v : V) (d : list (string * V)) :
  In k' (map fst (dict_set k v d)) <-> k' = k \/ In k' (map fst d).
Proof.
  induction d as [|[k0 v0] d IH]; simpl.
  - intuition.
  - destruct (String.eqb_spec k k0) as [->|Hk]; simpl; intuition.
Qed.

(** Assignment keeps the keys of a dictionary distinct. *)
Lemma nodup_dict_set (k : string) (v : V) (d : list (string * V)) :
  NoDup (map fst d) -> NoDup (map fst (dict_set k v d)).
Proof.
  induction d as [|[k0 v0] d IH]; simpl; intros H.
  - constructor; [intros [] | constructor].
  - inversion H as [|x l Hnotin Hnd]; subst.
    destruct (String.eqb_spec k k0) as [->|Hk]; simpl.
    + now constructor.
    + constructor; [|auto].
      rewrite keys_dict_set. intros [E|Hin]; [congruence | contradiction].
Qed.

End DictFacts.

Section CountFacts.

Local Open Scope Z_scope.

Lemma total_count_incr (k : string) (d : list (string * Z)) :
  total_count (dict_set k (dict_get d k 0 + 1) d) = total_count d + 1.
Proof.
  unfold dict_get.
  induction d as [|[k0 v0] d IH]; simpl.
  - lia.
  - destruct (String.eqb k k0); simpl; lia.
Qed.

Lemma logs_in_category_app (cat : string) (l l' : list WasteLog.t) :
  logs_in_category cat (l ++ l') = logs_in_category cat l + logs_in_category cat l'.
Proof.
  unfold logs_in_category. rewrite filter_app, length_app. lia.
Qed.

Lemma logs_in_category_nonneg (cat : string) (l : list WasteLog.t) :
  0 <= logs_in_category cat l.
Proof. unfold logs_in_category. lia. Qed.

End CountFacts.

(** The loop over the logs keeps, for every category, the number of logs
    seen so far. *)
Lemma category_counts_spec (all_logs : list WasteLog.t) :
  total_count (category_counts all_logs) = Z.of_nat (List.length all_logs)
  /\ NoDup (map fst (category_counts all_logs))
  /\ forall cat,
       assoc cat (category_counts all_logs)
       = if (logs_in_category cat all_logs =? 0)%Z then None
         else Some (logs_in_category cat all_logs).
Proof.
  unfold category_counts.
  induction all_logs as [|log logs IH] using rev_ind.
  - split; [reflexivity|]. split; [constructor | reflexivity].
  - rewrite fold_left_app. cbn [fold_left].
    destruct IH as (Hsum & Hnd & Hget).
    set (counts := fold_left _ logs []) in *.
    split; [|split].
    + rewrite total_count_incr, Hsum, length_app. simpl. lia.
    + now apply nodup_dict_set.
    + intros cat. rewrite logs_in_category_app.
      pose proof (logs_in_category_nonneg cat logs) as Hnn.
      destruct (String.eqb_spec cat (category_or_other log)) as [->|Hne].
      * rewrite assoc_dict_set_same. unfold dict_get. rewrite Hget.
        assert (E : logs_in_category (category_or_other log) [log] = 1%Z).
        { unfold logs_in_category. simpl. now rewrite String.eqb_refl. }
        rewrite E.
        destruct (Z.eqb_spec (logs_in_category (category_or_other log) logs) 0) as [E0|N0];
          destruct (Z.eqb_spec (logs_in_category (category_or_other log) logs + 1) 0);
          try lia; f_equal; lia.
      * rewrite assoc_dict_set_other by exact Hne. rewrite Hget.
        assert (E : logs_in_category cat [log] = 0%Z).
        { unfold logs_in_category. simpl.
          destruct (String.eqb_spec (category_or_other log) cat); [congruence | reflexivity]. }
        rewrite E, Z.add_0_r. reflexivity.
Qed.

(** X7.  The category counts of the dashboard and of the category
    breakdown: the counts add up to the number of logs, no category is
    listed twice, and a category is listed exactly when some log has it
    (a missing or empty category counting as "other"), with the number of
    such logs as its count. *)
Theorem category_counts_exact (all_logs : list WasteLog.t) :
  total_count (category_counts all_logs) = Z.of_nat (List.length all_logs)
  /\ NoDup (map fst (category_counts all_logs))
  /\ forall cat,
       assoc cat (category_counts all_logs)
       = if (logs_in_category cat all_logs =? 0)%Z then None
         else Some (logs_in_category cat all_logs).
Proof. exact (category_counts_spec all_logs). Qed.

Section TrendFacts.

Local Open Scope Z_scope.








End TrendFacts.



(* ================================================================== *)
(** ** The routes *)

Section RouteFacts.

Lemma flash_keeps (k : string) (m : message) (c : string) (st : site) :
  k <> "_flashes" -> assoc k (session (flash m c st)) = assoc k (session st).
Proof. intros Hk. unfold flash. cbn [session]. now apply assoc_dict_set_other. Qed.

Lemma flash_appends (m : message) (c : string) (st : site) :
  flashes (flash m c st) = (flashes st ++ [(c, m)])%list.
Proof. unfold flashes, flash. cbn [session]. now rewrite assoc_dict_set_same. Qed.

Lemma flash_tables (m : message) (c : string) (st : site) :
  users (flash m c st) = users st /\ waste_logs (flash m c st) = waste_logs st.
Proof. split; reflexivity. Qed.

Lemma find_existsb {A : Type} (f : A -> bool) (l : list A) :
  find f l = None <-> existsb f l = false.
Proof.
  induction l as [|x l IH]; simpl; [tauto|].
  destruct (f x); simpl; [split; discriminate | exact IH].
Qed.

End RouteFacts.

(** X10.  After [logout] every view behind [login_required] redirects to
    the login page: the view itself does not run, so the tables are left
    as they were and nothing is posted; the session holds no user id, only
    the two flashed messages. *)
Theorem logout_locks_views (f : site -> step) (st : site) :
  let s := login_required f (after (logout st)) in
  result s = Responded (Redirect "login" None)
  /\ users (after s) = users st
  /\ waste_logs (after s) = waste_logs st
  /\ posted s = []
  /\ assoc "user_id" (session (after s)) = None
  /\ flashes (after s)
     = [("info", Text "Logged out.");
        ("warning", Text "Please log in to access this page.")].
Proof. repeat split. Qed.

(** X11.  A login request redirects to the dashboard only for a row of
    [users] with the submitted user name whose stored hash the password
    check accepts, and then puts that row's id and name in the session;
    when it does not redirect, the session's user id is what it was: a
    failed login neither logs in nor logs out.  The tables never
    change. *)
Theorem login_sets_session (ext : externals) (form : list (string * string))
    (st : site) :
  let s := login ext POST form st in
  users (after s) = users st
  /\ waste_logs (after s) = waste_logs st
  /\ match result s with
     | Responded (Redirect endpoint _) =>
         endpoint = "dashboard"
         /\ exists user name,
              assoc "username" form = Some name
              /\ In user (users st)
              /\ User.username user = name
              /\ ext_check_password_hash ext (User.password_hash user)
                   (assoc "password" form) = Returned true
              /\ assoc "user_id" (session (after s)) = Some (SInt (User.id user))
              /\ assoc "username" (session (after s)) = Some (SStr name)
     | _ => assoc "user_id" (session (after s)) = assoc "user_id" (session st)
     end.
Proof.
  unfold login, user_by_username.
  destruct (assoc "username" form) as [name|] eqn:En;
    [|repeat split; apply flash_keeps; discriminate].
  destruct (find (fun row => String.eqb (User.username row) name) (users st))
    as [user|] eqn:Ef; [|repeat split; apply flash_keeps; discriminate].
  apply find_some in Ef. destruct Ef as [Hin Hname].
  apply String.eqb_eq in Hname.
  destruct (ext_check_password_hash ext (User.password_hash user) (assoc "password" form))
    as [[|]|e] eqn:Ec; cbn [result after].
  - split; [reflexivity|]. split; [reflexivity|]. split; [reflexivity|].
    exists user, name. repeat split; auto.
    + rewrite flash_keeps by discriminate. cbn [session].
      rewrite assoc_dict_set_other by discriminate.
      apply assoc_dict_set_same.
    + rewrite flash_keeps by discriminate. cbn [session].
      rewrite assoc_dict_set_same. now rewrite Hname.
  - repeat split. apply flash_keeps. discriminate.
  - repeat split.
Qed.

(** The cases of a registration request. *)
Lemma register_outcome (ext : externals) (now : Z) (form : list (string * string))
    (st : site) :
  let s := register ext now POST form st in
  waste_logs (after s) = waste_logs st
  /\ ((result s = Responded (Redirect "register" None) /\ users (after s) = users st)
      \/ exists u e p,
           assoc "username" form = Some u /\ assoc "email" form = Some e
           /\ assoc "password" form = Some p
           /\ assoc "confirm_password" form = Some p
           /\ nonempty u = true /\ nonempty e = true
           /\ (6 <= String.length p)%nat
           /\ existsb (fun row => String.eqb (User.username row) u) (users st) = false
           /\ existsb (fun row => String.eqb (User.email row) e) (users st) = false
           /\ result s = Responded (Redirect "login" None)
           /\ users (after s)
              = (users st ++ [{| User.id := ext_user_id ext (users st);
                                 User.username := u;
                                 User.email := e;
                                 User.password_hash := ext_generate_password_hash ext p;
                                 User.created_at := now |}])%list).
Proof.
  unfold register, redirect_with, user_by_username, user_by_email.
  destruct (assoc "username" form) as [u|]; [|cbn; auto].
  destruct (assoc "email" form) as [e|]; [|cbn; auto].
  destruct (assoc "password" form) as [p|]; [|cbn; auto].
  cbn [missing].
  destruct (nonempty u) eqn:Hu; [|cbn; auto].
  destruct (nonempty e) eqn:He; [|cbn; auto].
  destruct (nonempty p) eqn:Hp; [|cbn; auto].
  cbn [negb orb].
  destruct (assoc "confirm_password" form) as [c|]; [|cbn; auto].
  destruct (String.eqb_spec p c) as [<-|Hpc]; [|cbn; auto].
  cbn [negb].
  destruct (Nat.ltb_spec (String.length p) 6) as [Hlen|Hlen]; [cbn; auto|].
  destruct (find (fun row => String.eqb (User.username row) u) (users st)) eqn:Fu;
    [cbn; auto|].
  destruct (find (fun row => String.eqb (User.email row) e) (users st)) eqn:Fe;
    [cbn; auto|].
  apply find_existsb in Fu. apply find_existsb in Fe.
  unfold add_user. rewrite Fu, Fe. cbn [orb result after users waste_logs flash].
  split; [reflexivity|].
  right. exists u, e, p. repeat split; auto.
Qed.


Section UniqueFacts.

Lemma existsb_not_in {A : Type} (key : A -> string) (k : string) (l : list A) :
  existsb (fun row => String.eqb (key row) k) l = false -> ~ In k (map key l).
Proof.
  induction l as [|x l IH]; simpl; [tauto|].
  intros H. apply orb_false_elim in H. destruct H as [Hx Hl].
  apply String.eqb_neq in Hx. intros [E|Hin]; [congruence | now apply IH].
Qed.

Lemma nodup_snoc {A : Type} (l : list A) (x : A) :
  NoDup l -> ~ In x l -> NoDup (l ++ [x]).
Proof.
  induction l as [|y l IH]; simpl; intros Hnd Hx.
  - constructor; [tauto | constructor].
  - inversion Hnd as [|z l' Hy Hl]; subst.
    constructor.
    + rewrite in_app_iff. simpl. intuition.
    + apply IH; tauto.
Qed.

Lemma find_snoc {A : Type} (f : A -> bool) (l : list A) (x : A) :
  existsb f l = false -> f x = true -> find f (l ++ [x]) = Some x.
Proof.
  induction l as [|y l IH]; simpl; intros Hl Hx.
  - now rewrite Hx.
  - apply orb_false_elim in Hl. destruct Hl as [Hy Hl]. rewrite Hy. auto.
Qed.

End UniqueFacts.

(** X13.  Registration keeps user names and e-mail addresses unique: when
    no two rows of [users] share a user name or an e-mail before the
    request, none do after it. *)
Theorem register_keeps_unique (ext : externals) (now : Z)
    (form : list (string * string)) (st : site)
    (Hnames : NoDup (map User.username (users st)))
    (Hmails : NoDup (map User.email (users st))) :
  NoDup (map User.username (users (after (register ext now POST form st))))
  /\ NoDup (map User.email (users (after (register ext now POST form st)))).
Proof.
  destruct (register_outcome ext now form st) as [_ [[_ Hu]|Hok]].
  - now rewrite Hu.
  - destruct Hok as (u & e & p & _ & _ & _ & _ & _ & _ & _ & Fu & Fe & _ & Hu).
    rewrite Hu, !map_app. cbn [map User.username User.email].
    split; apply nodup_snoc; auto; now apply existsb_not_in.
Qed.

Lemma register_keeps_unique_witness :
  NoDup (map User.username (users site_fixture))
  /\ NoDup (map User.email (users site_fixture))
  /\ map User.username
       (users (after (register externals_fixture 5 POST form_fixture site_fixture)))
     = ["ada"; "bob"]
  /\ NoDup (map User.username
              (users (after (register externals_fixture 5 POST form_fixture site_fixture))))
  /\ NoDup (map User.email
              (users (after (register externals_fixture 5 POST form_fixture site_fixture)))).
Proof.
  assert (H1 : NoDup (map User.username (users site_fixture))).
  { constructor; [intros [] | constructor]. }
  assert (H2 : NoDup (map User.email (users site_fixture))).
  { constructor; [intros [] | constructor]. }
  split; [exact H1|]. split; [exact H2|]. split; [reflexivity|].
  exact (register_keeps_unique externals_fixture 5 form_fixture site_fixture H1 H2).
Defined.

(** X14.  Register, then log in: when a registration request succeeds and
    the password check accepts every password against its own hash, the
    same form logs in; the session then holds the id the database gave the
    new row. *)
Theorem register_then_login (ext : externals) (now : Z)
    (form : list (string * string)) (st : site)
    (Hregistered : result (register ext now POST form st)
                   = Responded (Redirect "login" None))
    (Hcheck : forall p,
        ext_check_password_hash ext (ext_generate_password_hash ext p) (Some p)
        = Returned true) :
  let s := login ext POST form (after (register ext now POST form st)) in
  result s = Responded (Redirect "dashboard" None)
  /\ assoc "user_id" (session (after s)) = Some (SInt (ext_user_id ext (users st)))
  /\ assoc "username" (session (after s))
     = option_map SStr (assoc "username" form).
Proof.
  destruct (register_outcome ext now form st) as [_ [[Hr _]|Hok]];
    [rewrite Hr in Hregistered; discriminate|].
  destruct Hok as (u & e & p & Eu & Ee & Ep & _ & _ & _ & _ & Fu & _ & _ & Hu).
  unfold login, user_by_username. rewrite Eu, Ep, Hu.
  rewrite (find_snoc _ _ _ Fu) by (cbn [User.username]; apply String.eqb_refl).
  cbn [User.password_hash User.id User.username].
  rewrite Hcheck. cbn [result after option_map].
  split; [reflexivity|]. split.
  - rewrite flash_keeps by discriminate. cbn [session].
    rewrite assoc_dict_set_other by discriminate. apply assoc_dict_set_same.
  - rewrite flash_keeps by discriminate. cbn [session].
    apply assoc_dict_set_same.
Qed.

Lemma register_then_login_witness :
  result (register externals_fixture 5 POST form_fixture site_fixture)
  = Responded (Redirect "login" None)
  /\ (forall p,
        ext_check_password_hash externals_fixture
          (ext_generate_password_hash externals_fixture p) (Some p)
        = Returned true)
  /\ result (login externals_fixture POST form_fixture
               (after (register externals_fixture 5 POST form_fixture site_fixture)))
     = Responded (Redirect "dashboard" None)
  /\ assoc "user_id"
       (session (after (login externals_fixture POST form_fixture
                          (after (register externals_fixture 5 POST form_fixture
                                    site_fixture)))))
     = Some (SInt 2%Z).
Proof.
  assert (H : forall p,
             ext_check_password_hash externals_fixture
               (ext_generate_password_hash externals_fixture p) (Some p)
             = Returned true).
  { intros p. cbn. now rewrite String.eqb_refl. }
  split; [reflexivity|]. split; [exact H|].
  destruct (register_then_login externals_fixture 5 form_fixture site_fixture
              eq_refl H) as (Hr & Hid & _).
  split; [exact Hr | exact Hid].
Defined.

(** X15.  [view_log] shows a log only to its owner: whatever the state
    and the id asked for, the page is rendered only with a row of
    [waste_logs] that has this id and whose user id is the one in the
    session; the request changes no table and posts nothing. *)
Theorem view_log_owner_only (log_id : Z) (st : site) :
  let s := view_log log_id st in
  users (after s) = users st
  /\ waste_logs (after s) = waste_logs st
  /\ posted s = []
  /\ match result s with
     | Responded (Render _ (Some log)) =>
         In log (waste_logs st)
         /\ WasteLog.id log = log_id
         /\ assoc "user_id" (session st) = Some (SInt (WasteLog.user_id log))
     | Responded (Render _ None) => False
     | Responded (JsonCounts _) | Responded (JsonTrend _) => False
     | _ => True
     end.
Proof.
  unfold view_log, login_required, view_log_view, log_by_id, has_key.
  destruct (assoc "user_id" (session st)) as [uid|] eqn:Eu; cbn [negb];
    [|repeat split].
  destruct (find (fun row => (WasteLog.id row =? log_id)%Z) (waste_logs st))
    as [log|] eqn:Ef; [|repeat split].
  apply find_some in Ef. destruct Ef as [Hin Hid]. apply Z.eqb_eq in Hid.
  destruct uid as [u| |]; cbn [negb]; try (repeat split; fail).
  destruct (Z.eqb_spec (WasteLog.user_id log) u) as [<-|Hne]; cbn [negb];
    repeat split; auto.
Qed.

(** X16.  [log_waste] keeps the exceptions of the analysis away from the
    user: for a logged-in user, a non-empty item name and a quantity that
    [float] reads, the request always ends in a redirect, having posted
    what the analysis posted; and when the analysis raises, nothing is
    stored, the redirect goes back to the form and the error is
    flashed. *)
Theorem log_waste_contains_errors (ext : externals) (form : list (string * string))
    (st : site) (name : string) (quantity : float)
    (Hin : has_key "user_id" (session st) = true)
    (Hname : assoc "item_name" form = Some name)
    (Hne : nonempty name = true)
    (Hq : form_quantity ext form = Some quantity) :
  let analysis := get_ai_waste_analysis (ext_json_loads ext) (ext_environ ext)
                    (ext_post ext) name quantity default_location in
  let s := log_waste ext POST form st in
  posted s = snd analysis
  /\ users (after s) = users st
  /\ (exists endpoint log_id, result s = Responded (Redirect endpoint log_id))
  /\ forall e, fst analysis = Raised e ->
       result s = Responded (Redirect "log_waste" None)
       /\ waste_logs (after s) = waste_logs st
       /\ flashes (after s) = (flashes st ++ [("danger", ErrorText (Exn e))])%list.
Proof.
  unfold log_waste, login_required, log_waste_view. rewrite Hin. cbn [negb].
  unfold form_quantity in Hq. rewrite Hq, Hname. cbn [missing]. rewrite Hne.
  cbn [negb].
  destruct (get_ai_waste_analysis (ext_json_loads ext) (ext_environ ext) (ext_post ext)
              name quantity default_location) as [[r|e0] requests]; cbn [fst snd].
  - unfold has_key in Hin.
    destruct (assoc "user_id" (session st)) as [uid|]; [|discriminate].
    destruct (ext_add_log ext (waste_logs st) _) as [[table log_id]|];
      cbn [posted after result users];
      (split; [reflexivity|]); (split; [reflexivity|]);
      (split; [eauto|]); intros e He; discriminate.
  - cbn [posted after result users].
    split; [reflexivity|]. split; [reflexivity|]. split; [eauto|].
    intros e [= <-]. split; [reflexivity|]. split; [reflexivity|].
    apply flash_appends.
Qed.

Lemma log_waste_contains_errors_witness :
  has_key "user_id" (session site_fixture) = true
  /\ assoc "item_name" waste_form_fixture = Some "can"
  /\ nonempty "can" = true
  /\ form_quantity externals_fixture waste_form_fixture = Some 2%float
  /\ fst (get_ai_waste_analysis json_loads_fixture environ_fixture (post_fixture "[]")
            "can" 2%float default_location) = Raised AttributeError
  /\ result (log_waste externals_fixture POST waste_form_fixture site_fixture)
     = Responded (Redirect "log_waste" None)
  /\ waste_logs (after (log_waste externals_fixture POST waste_form_fixture site_fixture))
     = []
  /\ flashes (after (log_waste externals_fixture POST waste_form_fixture site_fixture))
     = [("danger", ErrorText (Exn AttributeError))].
Proof.
  do 5 (split; [reflexivity|]).
  exact (proj2 (proj2 (proj2
           (log_waste_contains_errors externals_fixture waste_form_fixture site_fixture
              "can" 2%float eq_refl eq_refl eq_refl eq_refl)))
           AttributeError eq_refl).
Defined.

(** X17.  The order of the checks of [log_waste]: without a user id in the
    session the request is sent to the login page; otherwise the quantity
    is read first, so a text that [float] rejects raises ValueError even
    when the item name is missing too; and with a readable quantity a
    missing or empty item name is answered with a flashed message.  In all
    three cases nothing is posted and no log is stored. *)
Theorem log_waste_validation (ext : externals) (form : list (string * string))
    (st : site) :
  let s := log_waste ext POST form st in
  if negb (has_key "user_id" (session st)) then
    result s = Responded (Redirect "login" None)
    /\ posted s = []
    /\ waste_logs (after s) = waste_logs st
  else
    match form_quantity ext form with
    | None => result s = Failed ValueError /\ after s = st /\ posted s = []
    | Some _ =>
        if missing (assoc "item_name" form) then
          result s = Responded (Redirect "log_waste" None)
          /\ posted s = []
          /\ waste_logs (after s) = waste_logs st
          /\ flashes (after s)
             = (flashes st ++ [("danger", Text "Enter an item name.")])%list
        else True
    end.
Proof.
  unfold log_waste, login_required.
  destruct (has_key "user_id" (session st)) eqn:Hin; cbn [negb].
  - unfold log_waste_view, form_quantity.
    destruct (match assoc "quantity" form with
              | Some text => ext_float ext text
              | None => Some 1%float
              end) as [q|] eqn:Hq.
    + destruct (assoc "item_name" form) as [name|] eqn:Hname.
      * destruct (missing (Some name)) eqn:Hm; [|exact I].
        cbn [result posted after redirect_with].
        split; [reflexivity|]. split; [reflexivity|].
        split; [apply flash_tables|apply flash_appends].
      * cbn [missing result posted after redirect_with].
        split; [reflexivity|]. split; [reflexivity|].
        split; [apply flash_tables|apply flash_appends].
    + repeat split.
  - cbn [result posted after].
    split; [reflexivity|]. split; [reflexivity|]. apply flash_tables.
Qed.

Lemma filter_filter {A : Type} (f g : A -> bool) (l : list A) :
  filter f (filter g l) = filter (fun a => g a && f a) l.
Proof.
  induction l as [|a l IH]; [reflexivity|].
  cbn [filter]. destruct (g a); cbn [andb filter]; [|exact IH].
  destruct (f a); rewrite IH; reflexivity.
Qed.

(** X18.  The category breakdown is private: for a session that holds the
    user id [u] the answer lists, for every category, the number of the
    logs of [u] with that category, 0 standing for a category that is not
    listed; the logs of other users are never counted, and the request
    changes nothing. *)
Theorem breakdown_counts_own_logs (st : site) (u : Z)
    (Hu : assoc "user_id" (session st) = Some (SInt u)) :
  exists counts,
    result (api_category_breakdown st) = Responded (JsonCounts counts)
    /\ after (api_category_breakdown st) = st
    /\ forall cat,
         dict_get counts cat 0%Z
         = Z.of_nat (List.length
                       (filter (fun row => (WasteLog.user_id row =? u)%Z
                                           && String.eqb (category_or_other row) cat)
                          (waste_logs st))).
Proof.
  unfold api_category_breakdown, login_required, has_key. rewrite Hu. cbn [negb].
  eexists. split; [reflexivity|]. split; [reflexivity|].
  intros cat. unfold dict_get.
  destruct (category_counts_spec (logs_of (waste_logs st) (SInt u))) as (_ & _ & Hget).
  rewrite Hget. unfold logs_in_category, logs_of. rewrite filter_filter.
  destruct (Z.eqb_spec (Z.of_nat (List.length
             (filter (fun a => (WasteLog.user_id a =? u)%Z
                               && String.eqb (category_or_other a) cat)
                (waste_logs st)))) 0) as [E|E].
  - symmetry. exact E.
  - reflexivity.
Qed.

Lemma breakdown_counts_own_logs_witness :
  assoc "user_id" (session site_with_logs) = Some (SInt 1%Z)
  /\ exists counts,
       result (api_category_breakdown site_with_logs) = Responded (JsonCounts counts)
       /\ dict_get counts "food" 0%Z = 1%Z
       /\ dict_get counts "other" 0%Z = 1%Z.
Proof.
  split; [reflexivity|].
  destruct (breakdown_counts_own_logs site_with_logs 1%Z eq_refl)
    as (counts & Hres & _ & Hcount).
  exists counts. split; [exact Hres|].
  split; rewrite Hcount; reflexivity.
Defined.
